(** * Challenges app: the AI-challenge text parser, the solution views and
    the correctness_level backfill

    A shallow embedding of [challenges/views.py] and
    [challenges/migrations/fix_correctness_level.py].

    Python [str] values are lists of Unicode code points; a [dict] is a
    [gmap]; the request handlers thread a [World] (record store, flash
    messages, standard output) through an exception monad; the external
    collaborators (AI service, forms, record-store faults) are Section
    variables. *)

From Stdlib Require Import String Ascii NArith.
From stdpp Require Import base option list gmap countable numbers pretty.

(** ** Python strings *)

Module PyStr.

(** A [str] is a sequence of code points. *)
Definition str := list N.

(** A literal. *)
Definition py (s : string) : str := N_of_ascii <$> list_ascii_of_string s.

(** ["\n"] *)
Definition NL : N := 10%N.

(** [c.isspace()]: the code points CPython treats as whitespace. *)
Definition isspace (c : N) : bool :=
  ((9 <=? c) && (c <=? 13) || (28 <=? c) && (c <=? 32)
   || (c =? 133) || (c =? 160) || (c =? 5760)
   || (8192 <=? c) && (c <=? 8202)
   || (c =? 8232) || (c =? 8233) || (c =? 8239) || (c =? 8287)
   || (c =? 12288))%N.

(** [s.lstrip()] *)
Fixpoint lstrip (s : str) : str :=
  match s with
  | [] => []
  | c :: s' => if isspace c then lstrip s' else s
  end.

(** [s.rstrip()] *)
Definition rstrip (s : str) : str := reverse (lstrip (reverse s)).

(** [s.strip()] *)
Definition strip (s : str) : str := rstrip (lstrip s).

(** [bool(s)]: a string is truthy when it is not empty. *)
Definition truthy (s : str) : bool :=
  match s with
  | [] => false
  | _ :: _ => true
  end.

(** [s.startswith(p)] *)
Fixpoint startswith (s p : str) {struct p} : bool :=
  match p with
  | [] => true
  | a :: p' =>
    match s with
    | [] => false
    | b :: s' => (a =? b)%N && startswith s' p'
    end
  end.

(** [s.split(sep)] for a one-character separator: never the empty list,
    [n] separators give [n + 1] pieces. *)
Fixpoint split (sep : N) (s : str) : list str :=
  match s with
  | [] => [[]]
  | c :: s' =>
    if (c =? sep)%N then [] :: split sep s'
    else match split sep s' with
         | [] => [[c]]
         | l :: ls => (c :: l) :: ls
         end
  end.

(** The scan of [s.replace(old, new)] for a non-empty [old]: left to right,
    non-overlapping; [skip] counts the characters of a match still to be
    dropped. *)
Fixpoint replace_scan (old new : str) (skip : nat) (s : str) : str :=
  match s with
  | [] => []
  | c :: s' =>
    match skip with
    | S k => replace_scan old new k s'
    | O =>
      if startswith s old
      then new ++ replace_scan old new (length old - 1) s'
      else c :: replace_scan old new 0 s'
    end
  end.

(** [s.replace(old, new)]; an empty [old] matches before every character
    and at the end. *)
Definition replace (s old new : str) : str :=
  match old with
  | [] => new ++ (s ≫= λ c, c :: new)
  | _ :: _ => replace_scan old new 0 s
  end.

(** [old in s] *)
Fixpoint occurs (old s : str) : bool :=
  startswith s old
  || match s with
     | [] => false
     | _ :: s' => occurs old s'
     end.

(** [s[:n]] for [n >= 0]. *)
Definition slice_to (n : nat) (s : str) : str := take n s.

(** [str(i)] for a natural number. *)
Definition str_of_nat (i : nat) : str := py (pretty i).

(** ["\n".join(ls)], used to write multi-line inputs. *)
Fixpoint join_lines (ls : list str) : str :=
  match ls with
  | [] => []
  | [l] => l
  | l :: ls' => l ++ NL :: join_lines ls'
  end.

End PyStr.

Import PyStr.

(** ** Exceptions *)

(** An exception caught by [except Exception as e]; [str(e)] is its
    message. *)
Inductive exn : Type :=
| IndexError (msg : str)
| Http404 (msg : str)
| Exception (msg : str).

Definition exn_str (e : exn) : str :=
  match e with
  | IndexError m => m
  | Http404 m => m
  | Exception m => m
  end.

(** The outcome of an expression that may raise. *)
Inductive res (A : Type) : Type :=
| Ok (a : A)
| Raise (e : exn).
Arguments Ok {A} a.
Arguments Raise {A} e.

#[global] Instance res_ret : MRet res := λ A a, Ok a.
#[global] Instance res_bind : MBind res := λ A B f m,
  match m with
  | Ok a => f a
  | Raise e => Raise e
  end.

(** [l[i]] for [i >= 0]. *)
Definition index {A} (l : list A) (i : nat) : res A :=
  match l !! i with
  | Some a => Ok a
  | None => Raise (IndexError (py "list index out of range"))
  end.

(** ** The parse inside [generate_ai_challenge] *)

Module Parser.

(** The values [current_section] takes: [None], ["title"],
    ["description"]. *)
Inductive section : Type := SecNone | SecTitle | SecDescription.

#[global] Instance section_eq_dec : EqDecision section.
Proof. solve_decision. Defined.

(** The variables the line loop updates. *)
Record scan : Type := Scan {
  title : str;
  description : str;
  current_section : section
}.

Definition scan_init : scan :=
  {| title := []; description := []; current_section := SecNone |}.

(** One iteration of [for line in lines]. *)
Definition scan_line (st : scan) (line0 : str) : scan :=
  let line := strip line0 in
  if negb (truthy line) then st
  else if startswith line (py "TITLE:") then
    {| title := strip (replace line (py "TITLE:") []);
       description := description st;
       current_section := SecTitle |}
  else if startswith line (py "DESCRIPTION:") then
    {| title := title st;
       description := description st;
       current_section := SecDescription |}
  else if bool_decide (current_section st = SecDescription)
          && negb (startswith line (py "HINT")) then
    {| title := title st;
       description := description st ++ line ++ [NL];
       current_section := current_section st |}
  else st.

(** [lines = challenge_text.strip().split('\n')] *)
Definition split_lines (challenge_text : str) : list str :=
  split NL (strip challenge_text).

(** The whole loop. *)
Definition scan_lines (lines : list str) : scan := foldl scan_line scan_init lines.

Definition default_hints : list str :=
  [ py "Start by breaking down the problem into smaller parts. What's the first step you would take?";
    py "Consider edge cases and how your solution handles different inputs. What assumptions are you making?";
    py "Look at your algorithm's efficiency. Can you optimize it further? Remember to test your solution with various inputs." ].

(** [f"hint_{i}"] *)
Definition hint_key (i : nat) : str := py "hint_" ++ str_of_nat i.

(** [d.get(k)]: [None] when the key is absent, the stored value (which
    may itself be [None]) otherwise. *)
Definition dict_get (d : gmap str (option str)) (k : str) : option str :=
  d !! k ≫= id.

(** [ai_hints = [result["hints"].get(f"hint_{i}") for i in range(1, 4)]] *)
Definition ai_hints_of (hint_map : gmap str (option str)) : list (option str) :=
  (λ i, dict_get hint_map (hint_key i)) <$> seq 1 3.

(** The test [if ai_hints[i] and ai_hints[i].strip()]: the value appended
    when it holds, [ai_hints[i].strip()], and [None] when it fails. *)
Definition usable_hint (h : option str) : option str :=
  match h with
  | None => None
  | Some v => if truthy v && truthy (strip v) then Some (strip v) else None
  end.

(** The loop [for i in range(3)] appending to [hints]. *)
Fixpoint hints_loop (ai_hints : list (option str)) (idxs : list nat)
    (hints : list str) : res (list str) :=
  match idxs with
  | [] => Ok hints
  | i :: idxs' =>
    h ← index ai_hints i;
    match usable_hint h with
    | Some v => hints_loop ai_hints idxs' (hints ++ [v])
    | None =>
      d ← index default_hints i;
      hints_loop ai_hints idxs' (hints ++ [d])
    end
  end.

(** What the parse hands to the [Challenge] constructor. *)
Record draft : Type := Draft {
  draft_title : str;
  draft_description : str;
  draft_hints : list str
}.

(** [title if title else "AI Generated Challenge"] *)
Definition title_or_default (t : str) : str :=
  if truthy t then t else py "AI Generated Challenge".

(** From [challenge_text] and [result["hints"]] to the constructor's
    [title], [description] and [hints] arguments. *)
Definition parse (challenge_text : str) (hint_map : gmap str (option str))
    : res draft :=
  let ai_hints := ai_hints_of hint_map in
  let st := scan_lines (split_lines challenge_text) in
  hints ← hints_loop ai_hints (seq 0 3) [];
  Ok {| draft_title := title_or_default (title st);
        draft_description := strip (description st);
        draft_hints := hints |}.

(** The tests of the loop, on a line of [lines] as the loop receives it. *)
Definition is_title_line (l : str) : bool := startswith (strip l) (py "TITLE:").
Definition is_description_line (l : str) : bool :=
  startswith (strip l) (py "DESCRIPTION:").
Definition is_hint_line (l : str) : bool := startswith (strip l) (py "HINT").

(** The loop resumed from a given state. *)
Definition scan_from (st : scan) (lines : list str) : scan := foldl scan_line st lines.

(** What one iteration of the hints loop appends for [ai_hints[i]]. *)
Definition fill_slot (h : option str) (i : nat) : str :=
  match usable_hint h with
  | Some v => v
  | None => default [] (default_hints !! i)
  end.

(** The draft with every field at its default. *)
Definition all_defaults : draft :=
  {| draft_title := py "AI Generated Challenge";
     draft_description := [];
     draft_hints := default_hints |}.

(** No line of the text carries a [TITLE:] or [DESCRIPTION:] marker. *)
Definition markerless (challenge_text : str) : bool :=
  forallb (λ l, negb (is_title_line l) && negb (is_description_line l))
    (split_lines challenge_text).

(** The hint slot as the specification words it: the trimmed value stored
    under [hint_{i+1}] when there is one and it is not blank after trimming,
    else the default of slot [i]. *)
Definition expected_slot (hint_map : gmap str (option str)) (i : nat) : str :=
  match hint_map !! hint_key (S i) with
  | Some (Some v) =>
    if bool_decide (strip v ≠ []) then strip v else default [] (default_hints !! i)
  | _ => default [] (default_hints !! i)
  end.

(** A line the loop appends to [description] when it is in the description
    section and the line is no [TITLE:] line. *)
Definition accumulates (l : str) : bool :=
  truthy (strip l) && negb (is_description_line l) && negb (is_hint_line l).

(** The title as the specification words it: the remainder of the line
    after the marker, trimmed. *)
Definition title_remainder (line : str) : str :=
  strip (drop (length (py "TITLE:")) (strip line)).

End Parser.

Import Parser.


(** ** The records of [challenges/models.py] the views use *)

(** The value of an attribute that may be missing ([hasattr] false), [None]
    or a string. *)
Inductive attr : Type :=
| NoAttr
| PyNone
| PyStr (s : str).

Module Challenge.
Record t : Type := Make {
  title : str;
  description : str;
  difficulty : str;
  hints : list str;
  created_by : str;
  is_ai_generated : bool;
  is_approved : bool
}.
End Challenge.

Module ChallengeSolution.
Record t : Type := Make {
  challenge : positive;
  user : str;
  solution_text : str;
  is_correct : bool;
  correctness_level : attr;
  ai_feedback : str
}.
End ChallengeSolution.

(** ** The request handlers of [challenges/views.py] *)

Module Views.

Inductive level : Type := Success | Error.

(** What a handler can read and change: the two tables of the record store
    keyed by primary key, the flash messages and the printed lines. *)
Record World : Type := MkWorld {
  challenges : gmap positive Challenge.t;
  solutions : gmap positive ChallengeSolution.t;
  flash : list (level * str);
  stdout : list str
}.

Record Request : Type := MkRequest {
  method : str;
  username : str;
  POST : gmap str str
}.

Inductive Response : Type :=
| Redirect (view : str) (pk : positive)
| Render (template : str).

(** The result of [generate_new_challenge]. *)
Record Generated : Type := MkGenerated {
  raw : str;
  gen_hints : gmap str (option str)
}.

(** A computation that reads and changes the world and may raise; what it
    changed before raising stays changed. *)
Definition M (A : Type) : Type := World → res A * World.

#[global] Instance M_ret : MRet M := λ A a w, (Ok a, w).
#[global] Instance M_bind : MBind M := λ A B f m w,
  match m w with
  | (Ok a, w') => f a w'
  | (Raise e, w') => (Raise e, w')
  end.

Definition lift {A} (r : res A) : M A := λ w, (r, w).

(** [try: body except Exception as e: handler] *)
Definition try_except {A} (body : M A) (handler : exn → M A) : M A := λ w,
  match body w with
  | (Ok a, w') => (Ok a, w')
  | (Raise e, w') => handler e w'
  end.

Definition print (line : str) : M unit := λ w,
  (Ok (), MkWorld (challenges w) (solutions w) (flash w) (stdout w ++ [line])).

(** [messages.success(request, text)] and [messages.error(request, text)] *)
Definition add_message (l : level) (text : str) : M unit := λ w,
  (Ok (), MkWorld (challenges w) (solutions w) (flash w ++ [(l, text)]) (stdout w)).

(** [Challenge.objects.filter(is_approved=True)], the queryset
    [challenge_list] starts from. *)
Definition approved_challenges (w : World) : gmap positive Challenge.t :=
  filter (λ kc, Challenge.is_approved kc.2 = true) (challenges w).

(** [get_object_or_404(Challenge, pk=pk, is_approved=True)], the lookup of
    [challenge_detail] and [submit_solution]. *)
Definition get_object_or_404 (pk : positive) : M Challenge.t := λ w,
  match approved_challenges w !! pk with
  | Some c => (Ok c, w)
  | None => (Raise (Http404 (py "No Challenge matches the given query.")), w)
  end.

(** [d.get(k, dflt)] on [request.POST]. *)
Definition post_get (d : gmap str str) (k dflt : str) : str := default dflt (d !! k).

(** [f"Our AI assistant is taking a break, ... {request.user.username}! ..."] *)
Definition fallback_feedback (name : str) : str :=
  py "Our AI assistant is taking a break, but your solution shows real effort, "
  ++ name
  ++ py "! Keep exploring different approaches and don't give up.".

Section Handlers.

(** The AI service of [services/ai_challenge.py]. *)
Variable get_challenge_feedback : str → Challenge.t → str → res str.
Variable generate_new_challenge : str → str → str → res Generated.

(** [ChallengeSolutionForm(request.POST)] of [challenges/forms.py]: [None]
    when [is_valid()] is false, else what [save(commit=False)] returns. *)
Variable ChallengeSolutionForm : gmap str str → option ChallengeSolution.t.

(** The record store: whether [save()] of a record raises. *)
Variable challenge_save_fault : Challenge.t → option exn.
Variable solution_save_fault : ChallengeSolution.t → option exn.

(** [challenge.save()] of a new record: inserted under a fresh primary
    key, which is returned as [challenge.pk]. *)
Definition save_challenge (c : Challenge.t) : M positive := λ w,
  match challenge_save_fault c with
  | Some e => (Raise e, w)
  | None =>
    let pk := fresh (dom (challenges w)) in
    (Ok pk, MkWorld (<[pk := c]> (challenges w)) (solutions w) (flash w) (stdout w))
  end.

(** [solution.save()] of a new record. *)
Definition save_solution (s : ChallengeSolution.t) : M positive := λ w,
  match solution_save_fault s with
  | Some e => (Raise e, w)
  | None =>
    let pk := fresh (dom (solutions w)) in
    (Ok pk, MkWorld (challenges w) (<[pk := s]> (solutions w)) (flash w) (stdout w))
  end.

(** The inner [try] of [submit_solution]: fill in [solution.ai_feedback]. *)
Definition get_ai_feedback (request : Request) (challenge : Challenge.t)
    (solution : ChallengeSolution.t) : M ChallengeSolution.t :=
  let with_feedback (fb : str) :=
    ChallengeSolution.Make (ChallengeSolution.challenge solution)
      (ChallengeSolution.user solution) (ChallengeSolution.solution_text solution)
      (ChallengeSolution.is_correct solution)
      (ChallengeSolution.correctness_level solution) fb in
  try_except
    (print (py "Getting AI feedback for challenge solution: "
            ++ slice_to 100 (ChallengeSolution.solution_text solution) ++ py "...");;
     fb ← lift (get_challenge_feedback (ChallengeSolution.solution_text solution)
                  challenge (username request));
     print (py "Received AI feedback: " ++ slice_to 100 fb ++ py "...");;
     mret (with_feedback fb))
    (λ e,
     print (py "Error getting AI feedback: " ++ exn_str e);;
     mret (with_feedback (fallback_feedback (username request)))).

Definition submit_solution (request : Request) (pk : positive) : M Response :=
  challenge ← get_object_or_404 pk;
  (if bool_decide (method request = py "POST") then
     match ChallengeSolutionForm (POST request) with
     | Some form_solution =>
       try_except
         ((* solution.challenge, .user, .is_correct, .correctness_level *)
          let solution :=
            ChallengeSolution.Make pk (username request)
              (ChallengeSolution.solution_text form_solution)
              true (PyStr (py "correct"))
              (ChallengeSolution.ai_feedback form_solution) in
          solution ← get_ai_feedback request challenge solution;
          save_solution solution;;
          add_message Success
            (py "Your solution has been submitted! Check out the AI feedback."))
         (λ e,
          print (py "Error saving solution: " ++ exn_str e);;
          add_message Error
            (py "There was an error saving your solution. Please try again."))
     | None => add_message Error (py "Please correct the errors in the form.")
     end
   else mret ());;
  mret (Redirect (py "challenge_detail") pk).

(** The [try] body of [generate_ai_challenge]; it ends in [return]. *)
Definition generate_and_save (request : Request) (difficulty topic : str)
    : M Response :=
  result ← lift (generate_new_challenge difficulty topic (username request));
  d ← lift (parse (raw result) (gen_hints result));
  let challenge :=
    Challenge.Make (draft_title d) (draft_description d) difficulty
      (draft_hints d) (username request) true true in
  pk ← save_challenge challenge;
  add_message Success (py "Your AI challenge has been generated!");;
  mret (Redirect (py "challenge_detail") pk).

Definition generate_ai_challenge (request : Request) : M Response :=
  let page := Render (py "challenges/generate_challenge.html") in
  if bool_decide (method request = py "POST") then
    let difficulty := post_get (POST request) (py "difficulty") (py "beginner") in
    let topic := post_get (POST request) (py "topic") (py "programming") in
    try_except
      (generate_and_save request difficulty topic)
      (λ e,
       print (py "Error generating AI challenge: " ++ exn_str e);;
       add_message Error
         (py "There was an error generating your challenge. Please try again.");;
       mret page)
  else mret page.

End Handlers.

End Views.

(** ** [migrations/fix_correctness_level.py] *)

Module Migration.

(** [not hasattr(solution, 'correctness_level') or not solution.correctness_level] *)
Definition level_unset (a : attr) : bool :=
  match a with
  | NoAttr => true
  | PyNone => true
  | PyStr s => negb (truthy s)
  end.

Definition with_level (s : ChallengeSolution.t) (l : str) : ChallengeSolution.t :=
  ChallengeSolution.Make (ChallengeSolution.challenge s) (ChallengeSolution.user s)
    (ChallengeSolution.solution_text s) (ChallengeSolution.is_correct s)
    (PyStr l) (ChallengeSolution.ai_feedback s).

(** The body of the loop, up to [solution.save()]. *)
Definition backfill (s : ChallengeSolution.t) : ChallengeSolution.t :=
  if ChallengeSolution.is_correct s && level_unset (ChallengeSolution.correctness_level s)
  then with_level s (py "correct")
  else if level_unset (ChallengeSolution.correctness_level s)
  then with_level s (py "incorrect")
  else s.

(** [for solution in ChallengeSolution.objects.all(): ...; solution.save()]:
    the rows are read once, and each save writes the row back under its
    primary key. *)
Definition set_default_correctness_level
    (table : gmap positive ChallengeSolution.t) : gmap positive ChallengeSolution.t :=
  foldl (λ db row, <[row.1 := backfill row.2]> db) table (map_to_list table).

End Migration.

(** ** The lines the parse acts on *)

Module ParserLines.

(** The lines as the loop body sees them past its [continue]: trimmed,
    the blank ones dropped. *)
Definition effective_lines (challenge_text : str) : list str :=
  filter (λ l, l ≠ []) (strip <$> split_lines challenge_text).

(** A line that carries no marker and is no [HINT] line. *)
Definition plain_line (l : str) : Prop :=
  l ≠ [] ∧ startswith l (py "TITLE:") = false
  ∧ startswith l (py "DESCRIPTION:") = false
  ∧ startswith l (py "HINT") = false.

(** [description] after appending the lines [kept]. *)
Definition appended (kept : list str) : str := concat ((λ l, l ++ [NL]) <$> kept).

End ParserLines.

Import ParserLines.

(** ** The other handlers of [challenges/views.py] *)

Module Pages.

Import Views.

#[local] Open Scope Z_scope.

(** [range(a, b)] *)
Definition py_range (a b : Z) : list Z := seqZ a (b - a).

(** [l[start:stop]] for [0 <= start <= stop]. *)
Definition slice {A} (l : list A) (start stop : Z) : list A :=
  take (Z.to_nat (stop - start)) (drop (Z.to_nat start) l).

(** The template context of [challenge_list]. *)
Record ListContext : Type := MkListContext {
  ctx_challenges : list (positive * Challenge.t);
  difficulty_filter : str;
  query : str;
  total_challenges : Z;
  total_pages : Z;
  current_page : Z;
  has_prev : bool;
  has_next : bool;
  page_range : list Z;
  user_solutions : gmap positive ChallengeSolution.t
}.

(** The template context of [challenge_detail] (its [form] entry is an
    unbound [ChallengeSolutionForm()]). *)
Record DetailContext : Type := MkDetailContext {
  detail_challenge : Challenge.t;
  user_solution : option ChallengeSolution.t
}.

Definition get_world : M World := λ w, (Ok w, w).

(** [for solution in solutions: user_solutions[solution.challenge_id] = solution] *)
Definition index_by_challenge (rows : list (positive * ChallengeSolution.t))
    : gmap positive ChallengeSolution.t :=
  foldl (λ d row, <[ChallengeSolution.challenge row.2 := row.2]> d) ∅ rows.

Section Handlers.

(** The database's [field__icontains=query] test, as [icontains field query]. *)
Variable icontains : str → str → bool.

(** [order_by('-created_at')] and [order_by('-submitted_at')]; the two
    date fields are not part of the records here. *)
Variable order_by_created_at_desc :
  list (positive * Challenge.t) → list (positive * Challenge.t).
Variable order_by_submitted_at_desc :
  list (positive * ChallengeSolution.t) → list (positive * ChallengeSolution.t).

(** [int(s)] on a string. *)
Variable py_int : str → res Z.

(** [ChallengeForm(request.POST)] of [challenges/forms.py]: [None] when
    [is_valid()] is false, else what [save(commit=False)] returns. *)
Variable ChallengeForm : gmap str str → option Challenge.t.

Variable challenge_save_fault : Challenge.t → option exn.

(** The three [icontains] tests joined by [|]. *)
Definition matches_query (q : str) (c : Challenge.t) : bool :=
  icontains (Challenge.title c) q
  || icontains (Challenge.description c) q
  || icontains (Challenge.created_by c) q.

(** The queryset of [challenge_list] after its filters and ordering; the
    rows of an unordered queryset come in the order of [map_to_list]. *)
Definition list_queryset (difficulty q : str) (w : World)
    : list (positive * Challenge.t) :=
  let challenges := approved_challenges w in
  let challenges :=
    if truthy difficulty
    then filter (λ kc, Challenge.difficulty kc.2 = difficulty) challenges
    else challenges in
  let challenges :=
    if truthy q
    then filter (λ kc, matches_query q kc.2 = true) challenges
    else challenges in
  order_by_created_at_desc (map_to_list challenges).

(** [challenge_list] from the pagination on, for the page number [page]
    that [int(...)] returned; the user is authenticated
    ([@login_required]). *)
Definition list_context (request : Request) (difficulty q : str) (page : Z)
    (w : World) : ListContext :=
  let challenges := list_queryset difficulty q w in
  let items_per_page := 6 in
  let total_challenges := Z.of_nat (length challenges) in
  let total_pages := (total_challenges + items_per_page - 1) `div` items_per_page in
  let page :=
    if page <? 1 then 1
    else if (total_pages <? page) && (0 <? total_pages) then total_pages
    else page in
  let start_index := (page - 1) * items_per_page in
  let end_index := start_index + items_per_page in
  let current_challenges := slice challenges start_index end_index in
  let challenge_ids := current_challenges.*1 in
  let solutions :=
    filter (λ row, ChallengeSolution.challenge row.2 ∈ challenge_ids
                   ∧ ChallengeSolution.user row.2 = username request)
      (map_to_list (solutions w)) in
  {| ctx_challenges := current_challenges;
     difficulty_filter := difficulty;
     query := q;
     total_challenges := total_challenges;
     total_pages := total_pages;
     current_page := page;
     has_prev := 1 <? page;
     has_next := page <? total_pages;
     page_range := py_range (1 `max` (page - 2)) ((total_pages + 1) `min` (page + 3));
     user_solutions := index_by_challenge solutions |}.

(** [challenge_list]; [GET] is [request.GET]. *)
Definition challenge_list (request : Request) (GET : gmap str str) : M ListContext :=
  let difficulty := post_get GET (py "difficulty") [] in
  let q := post_get GET (py "q") [] in
  page ← lift (match GET !! py "page" with
               | Some s => py_int s
               | None => Ok 1
               end);
  w ← get_world;
  mret (list_context request difficulty q page w).

Definition challenge_detail (request : Request) (pk : positive) : M DetailContext :=
  challenge ← get_object_or_404 pk;
  w ← get_world;
  let user_solution :=
    head (order_by_submitted_at_desc
            (filter (λ row, ChallengeSolution.challenge row.2 = pk
                            ∧ ChallengeSolution.user row.2 = username request)
               (map_to_list (solutions w)))) in
  mret {| detail_challenge := challenge; user_solution := snd <$> user_solution |}.

Definition create_challenge (request : Request) : M Response :=
  let page := Render (py "challenges/create_challenge.html") in
  if bool_decide (method request = py "POST") then
    match ChallengeForm (POST request) with
    | Some form_challenge =>
      let challenge :=
        Challenge.Make (Challenge.title form_challenge)
          (Challenge.description form_challenge) (Challenge.difficulty form_challenge)
          (Challenge.hints form_challenge) (username request)
          (Challenge.is_ai_generated form_challenge) true in
      pk ← save_challenge challenge_save_fault challenge;
      add_message Success (py "Your challenge has been created!");;
      mret (Redirect (py "challenge_detail") pk)
    | None => mret page
    end
  else mret page.

Definition quote_list (request : Request) : M Response :=
  mret (Render (py "dashboard/dashboard.html")).

End Handlers.

End Pages.

(** ** Sample collaborators and requests *)

Module Samples.

Import Views.

(** An AI service that is down. *)
Definition ai_down : str → Challenge.t → str → res str :=
  λ _ _ _, Raise (Exception (py "Connection timed out")).

(** An AI service that answers with a fixed challenge. *)
Definition generated : Generated :=
  MkGenerated
    (join_lines [py "TITLE: Sort an Array"; py "DESCRIPTION:"; py "Do it fast";
                 py "HINT_1: Think"])
    {[ py "hint_1" := Some (py "Think") ]}.

Definition ai_up : str → str → str → res Generated := λ _ _ _, Ok generated.

(** A form that is valid when [solution_text] is posted. *)
Definition text_form (post : gmap str str) : option ChallengeSolution.t :=
  text ← post !! py "solution_text";
  Some (ChallengeSolution.Make 1 [] text false NoAttr []).

(** A record store that never fails. *)
Definition no_fault {A} : A → option exn := λ _, None.

Definition two_sum : Challenge.t :=
  Challenge.Make (py "Two Sum") (py "Find two numbers adding up to a target")
    (py "beginner") [] (py "grace") false true.

(** One approved challenge, no solution yet. *)
Definition world0 : World := MkWorld {[ 1%positive := two_sum ]} ∅ [] [].

Definition post_solution (name : str) : Request :=
  MkRequest (py "POST") name {[ py "solution_text" := py "use a dict" ]}.

Definition post_generate : Request :=
  MkRequest (py "POST") (py "ada") {[ py "difficulty" := py "advanced" ]}.

End Samples.

(** ** Sample collaborators and worlds for the other handlers *)

Module PageSamples.

Import Views Pages Samples.

(** An AI service that praises every solution. *)
Definition ai_praise : str → Challenge.t → str → res str :=
  λ _ _ _, Ok (py "Well done").


(** A record store that refuses every save. *)
Definition locked {A} : A → option exn :=
  λ _, Some (Exception (py "database is locked")).

(** A form that is valid when [title] is posted. *)
Definition title_form (post : gmap str str) : option Challenge.t :=
  t ← post !! py "title";
  Some (Challenge.Make t (py "Describe it") (py "beginner") [] (py "nobody") false false).

(** A database that returns rows as they come, and matches case-sensitively. *)
Definition as_stored {A} : list A → list A := λ rows, rows.
Definition contains (field q : str) : bool := occurs q field.

Definition get_request (name : str) : Request := MkRequest (py "GET") name ∅.

Definition post_challenge : Request :=
  MkRequest (py "POST") (py "ada") {[ py "title" := py "FizzBuzz" ]}.

Definition numbered (i : nat) (approved : bool) : Challenge.t :=
  Challenge.Make (py "Challenge " ++ str_of_nat i) (py "Solve it") (py "beginner") []
    (py "grace") false approved.

(** Eight approved challenges and a hidden one; ada solved the first and
    the eighth, bob the first. *)
Definition library : World :=
  MkWorld
    (list_to_map
       ((9%positive, numbered 9 false)
        :: ((λ i, (Pos.of_nat i, numbered i true)) <$> seq 1 8)))
    (list_to_map
       [(1%positive, ChallengeSolution.Make 1 (py "ada") (py "a1") true
                       (PyStr (py "correct")) (py "ok"));
        (2%positive, ChallengeSolution.Make 1 (py "bob") (py "b1") true
                       (PyStr (py "correct")) (py "ok"));
        (3%positive, ChallengeSolution.Make 8 (py "ada") (py "a8") true
                       (PyStr (py "correct")) (py "ok"))])
    [] [].


End PageSamples.

(** * Properties *)

(** ** Facts about the string operations *)

Section PyStrFacts.

Implicit Types (s t p : str) (c : N).

Lemma truthy_true s : truthy s = true ↔ s ≠ [].
Proof. destruct s; simpl; split; congruence. Qed.

Lemma truthy_false s : truthy s = false ↔ s = [].
Proof. destruct s; simpl; split; congruence. Qed.

Lemma lstrip_length s : length (lstrip s) ≤ length s.
Proof. induction s as [|c s IH]; simpl; [lia|]. destruct (isspace c); simpl; lia. Qed.

(** What [lstrip] returns is empty or starts with a non-space. *)
Lemma lstrip_head s c t : lstrip s = c :: t → isspace c = false.
Proof.
  induction s as [|a s IH]; simpl; [done|].
  destruct (isspace a) eqn:Ha; [done|]. by intros [= <- _].
Qed.

Lemma lstrip_fixed s : lstrip (lstrip s) = lstrip s.
Proof.
  destruct (lstrip s) as [|c t] eqn:E; [done|].
  simpl. by rewrite (lstrip_head _ _ _ E).
Qed.

Lemma lstrip_snoc s c : isspace c = false → lstrip (s ++ [c]) = lstrip s ++ [c].
Proof.
  intros Hc. induction s as [|a s IH]; simpl; [by rewrite Hc|].
  by destruct (isspace a).
Qed.

Lemma rstrip_nil : rstrip [] = [].
Proof. done. Qed.

Lemma rstrip_cons s c : isspace c = false → rstrip (c :: s) = c :: rstrip s.
Proof.
  intros Hc. unfold rstrip. rewrite reverse_cons, lstrip_snoc by done.
  by rewrite reverse_app.
Qed.

Lemma rstrip_fixed s : rstrip (rstrip s) = rstrip s.
Proof. unfold rstrip. by rewrite reverse_involutive, lstrip_fixed. Qed.

(** What [strip] returns is empty or starts with a non-space. *)
Lemma strip_head s c t : strip s = c :: t → isspace c = false.
Proof.
  unfold strip. destruct (lstrip s) as [|a u] eqn:E; [done|].
  pose proof (lstrip_head _ _ _ E) as Ha.
  rewrite rstrip_cons by done. by intros [= <- _].
Qed.

Lemma strip_nil : strip [] = [].
Proof. done. Qed.

(** Trimming twice is trimming once. *)
Lemma strip_fixed s : strip (strip s) = strip s.
Proof.
  destruct (strip s) as [|c t] eqn:E; [done|].
  pose proof (strip_head _ _ _ E) as Hc.
  unfold strip at 1. simpl. rewrite Hc.
  rewrite <- E. unfold strip. apply rstrip_fixed.
Qed.

Lemma startswith_spec s p : startswith s p = true ↔ ∃ t, s = p ++ t.
Proof.
  revert s. induction p as [|a p IH]; intros s; simpl.
  - split; [intros _; by exists s | by intros _].
  - destruct s as [|b s].
    + split; [done|]. by intros [t ?].
    + rewrite andb_true_iff, N.eqb_eq, IH. split.
      * intros [-> [t ->]]. by exists t.
      * intros [t [= -> ->]]. split; [done | by exists t].
Qed.

Lemma startswith_app p t : startswith (p ++ t) p = true.
Proof. apply startswith_spec. eauto. Qed.

(** [split] never returns the empty list. *)
Lemma split_nonempty sep s : split sep s ≠ [].
Proof.
  induction s as [|c s IH]; simpl; [done|].
  destruct (c =? sep)%N; [done|]. by destruct (split sep s).
Qed.

(** The characters of a match still to be dropped are dropped. *)
Lemma replace_scan_skip old new (u : str) s :
  replace_scan old new (length u) (u ++ s) = replace_scan old new 0 s.
Proof.
  induction u as [|c u IH]; simpl; [|done].
  destruct s; [done|]. reflexivity.
Qed.

(** Without an occurrence of [old] nothing is replaced. *)
Lemma replace_scan_absent old new s :
  occurs old s = false → replace_scan old new 0 s = s.
Proof.
  induction s as [|c s IH]; [done|].
  cbn [occurs replace_scan]. intros [E1 E2]%orb_false_iff.
  by rewrite E1, IH.
Qed.

(** Removing [old] from [old ++ s] leaves [s] when [old] does not occur
    in [s]. *)
Lemma replace_leading a old' s :
  occurs (a :: old') s = false →
  replace ((a :: old') ++ s) (a :: old') [] = s.
Proof.
  intros H. unfold replace.
  change ((a :: old') ++ s) with (a :: (old' ++ s)).
  cbn [replace_scan].
  change (a :: old' ++ s) with ((a :: old') ++ s).
  rewrite startswith_app. cbn [app].
  replace (length (a :: old') - 1) with (length old') by (simpl; lia).
  rewrite replace_scan_skip. by apply replace_scan_absent.
Qed.

End PyStrFacts.

(** ** Facts about the parse *)

Section ParserFacts.

Implicit Types (st : scan) (l : str) (hm : gmap str (option str)).

Lemma startswith_nonempty s a p : startswith s (a :: p) = true → truthy s = true.
Proof. by destruct s. Qed.

(** A blank line changes nothing. *)
Lemma scan_line_blank st l : strip l = [] → scan_line st l = st.
Proof. intros E. unfold scan_line. by rewrite E. Qed.

(** A [TITLE:] line. *)
Lemma scan_line_title st l :
  is_title_line l = true →
  scan_line st l =
    {| title := strip (replace (strip l) (py "TITLE:") []);
       description := description st;
       current_section := SecTitle |}.
Proof.
  unfold is_title_line, scan_line. intros H.
  by rewrite (startswith_nonempty _ _ _ H), H.
Qed.

(** The two markers exclude each other. *)
Lemma description_line_not_title l :
  is_description_line l = true → is_title_line l = false.
Proof.
  unfold is_description_line, is_title_line.
  intros [t ->]%startswith_spec. reflexivity.
Qed.

(** A [DESCRIPTION:] line: whatever follows the marker is not looked at. *)
Lemma scan_line_description st l :
  is_description_line l = true →
  scan_line st l =
    {| title := title st;
       description := description st;
       current_section := SecDescription |}.
Proof.
  intros H. pose proof (description_line_not_title _ H) as Ht.
  unfold is_description_line, is_title_line, scan_line in *.
  by rewrite (startswith_nonempty _ _ _ H), Ht, H.
Qed.

(** Only a [TITLE:] line assigns [title]. *)
Lemma scan_line_keeps_title st l :
  is_title_line l = false → title (scan_line st l) = title st.
Proof.
  unfold is_title_line, scan_line. intros ->.
  by repeat case_match.
Qed.

Lemma scan_from_keeps_title st lines :
  Forall (λ l, is_title_line l = false) lines →
  title (scan_from st lines) = title st.
Proof.
  intros H. revert st. induction H as [|l lines Hl _ IH]; intros st; [done|].
  unfold scan_from in *. simpl. by rewrite IH, scan_line_keeps_title.
Qed.

Lemma scan_from_app st (ls1 ls2 : list str) :
  scan_from st (ls1 ++ ls2) = scan_from (scan_from st ls1) ls2.
Proof. apply foldl_app. Qed.

(** A line without marker leaves a state outside the description section
    as it is. *)
Lemma scan_line_idle st l :
  is_title_line l = false → is_description_line l = false →
  current_section st ≠ SecDescription →
  scan_line st l = st.
Proof.
  unfold is_title_line, is_description_line, scan_line. intros -> -> Hs.
  rewrite bool_decide_eq_false_2 by done. by case_match.
Qed.

Lemma scan_from_idle st lines :
  Forall (λ l, is_title_line l = false ∧ is_description_line l = false) lines →
  current_section st ≠ SecDescription →
  scan_from st lines = st.
Proof.
  intros H Hs. induction H as [|l lines [Ht Hd] _ IH]; [done|].
  unfold scan_from in *. simpl. by rewrite scan_line_idle.
Qed.

(** Before the first [DESCRIPTION:] line nothing is accumulated. *)
Lemma scan_from_no_description st lines :
  Forall (λ l, is_description_line l = false) lines →
  current_section st ≠ SecDescription →
  description (scan_from st lines) = description st
  ∧ current_section (scan_from st lines) ≠ SecDescription.
Proof.
  intros H. revert st. induction H as [|l lines Hd _ IH]; intros st Hs; [done|].
  unfold scan_from in *. simpl.
  destruct (is_title_line l) eqn:Ht.
  - rewrite (scan_line_title _ _ Ht).
    match goal with
    | |- context [foldl _ ?s' _] => destruct (IH s') as [E1 E2]; [done|]
    end.
    by rewrite E1.
  - rewrite scan_line_idle by done. by apply IH.
Qed.

Lemma ai_hints_of_eq hm :
  ai_hints_of hm =
    [dict_get hm (py "hint_1"); dict_get hm (py "hint_2"); dict_get hm (py "hint_3")].
Proof. reflexivity. Qed.

(** The parse never raises, and this is what it returns. *)
Lemma parse_eq raw hm :
  parse raw hm =
    Ok {| draft_title := title_or_default (title (scan_lines (split_lines raw)));
          draft_description := strip (description (scan_lines (split_lines raw)));
          draft_hints :=
            [fill_slot (dict_get hm (py "hint_1")) 0;
             fill_slot (dict_get hm (py "hint_2")) 1;
             fill_slot (dict_get hm (py "hint_3")) 2] |}.
Proof.
  unfold parse. rewrite ai_hints_of_eq. unfold fill_slot. simpl.
  destruct (usable_hint (dict_get hm (py "hint_1")));
    destruct (usable_hint (dict_get hm (py "hint_2")));
    destruct (usable_hint (dict_get hm (py "hint_3"))); reflexivity.
Qed.

(** A usable hint is trimmed and not empty. *)
Lemma usable_hint_Some h v : usable_hint h = Some v → strip v = v ∧ v ≠ [].
Proof.
  destruct h as [u|]; simpl; [|done].
  destruct (truthy u && truthy (strip u)) eqn:E; [|done].
  intros [= <-]. apply andb_true_iff in E as [_ E].
  split; [apply strip_fixed | by apply truthy_true].
Qed.

Lemma usable_hint_test u : truthy u && truthy (strip u) = bool_decide (strip u ≠ []).
Proof.
  destruct u as [|c u]; [done|]. simpl.
  destruct (strip (c :: u)); by simpl.
Qed.

Lemma default_hints_nonblank : Forall (λ h, strip h ≠ []) default_hints.
Proof. repeat constructor; by vm_compute. Qed.

Lemma fill_slot_nonblank h i : i < 3 → strip (fill_slot h i) ≠ [].
Proof.
  intros Hi. unfold fill_slot. destruct (usable_hint h) as [v|] eqn:E.
  - apply usable_hint_Some in E as [-> ?]. done.
  - pose proof default_hints_nonblank as H.
    rewrite Forall_lookup in H.
    destruct (default_hints !! i) as [d|] eqn:Ed; simpl; [by eapply H|].
    apply lookup_ge_None in Ed. simpl in Ed. lia.
Qed.

Lemma fill_slot_expected hm i :
  fill_slot (dict_get hm (hint_key (S i))) i = expected_slot hm i.
Proof.
  unfold fill_slot, expected_slot, dict_get.
  destruct (hm !! hint_key (S i)) as [[v|]|]; simpl; [|done..].
  rewrite usable_hint_test. by case_bool_decide.
Qed.

(** In the description section a line without [TITLE:] marker is appended
    or skipped, and the section stays. *)
Lemma scan_line_in_description st l :
  current_section st = SecDescription → is_title_line l = false →
  scan_line st l =
    {| title := title st;
       description := description st ++ (if accumulates l then strip l ++ [NL] else []);
       current_section := SecDescription |}.
Proof.
  intros Hs Ht. destruct st as [ti de se]. simpl in Hs. subst se.
  unfold scan_line, accumulates, is_description_line, is_hint_line.
  unfold is_title_line in Ht. rewrite Ht.
  destruct (truthy (strip l)), (startswith (strip l) (py "DESCRIPTION:")),
    (startswith (strip l) (py "HINT"));
    cbn [negb andb description title current_section];
    rewrite ?bool_decide_eq_true_2 by done;
    cbn [negb andb]; by rewrite ?app_nil_r.
Qed.

Lemma scan_from_in_description st lines :
  current_section st = SecDescription →
  Forall (λ l, is_title_line l = false) lines →
  description (scan_from st lines) =
    description st
    ++ concat ((λ l, strip l ++ [NL]) <$> filter (λ l, accumulates l = true) lines).
Proof.
  intros Hs H. revert st Hs.
  induction H as [|l lines Hl _ IH]; intros st Hs.
  - simpl. by rewrite app_nil_r.
  - unfold scan_from in *. simpl.
    rewrite (scan_line_in_description _ _ Hs Hl), IH by done. simpl.
    rewrite filter_cons. destruct (accumulates l) eqn:Ea.
    + rewrite decide_True by done. simpl. by rewrite <- !(assoc_L (++)).
    + rewrite decide_False by done. by rewrite app_nil_r.
Qed.

(** Slot [i] of the hints is filled from key [hint_{i+1}]. *)
Lemma parse_slot raw hm d i :
  parse raw hm = Ok d → i < 3 →
  draft_hints d !! i = Some (fill_slot (dict_get hm (hint_key (S i))) i).
Proof.
  rewrite parse_eq. intros [= <-] Hi.
  destruct i as [|[|[|i]]]; [reflexivity..|lia].
Qed.

Lemma parse_slot_none raw hm d i :
  parse raw hm = Ok d → 3 ≤ i → draft_hints d !! i = None.
Proof.
  rewrite parse_eq. intros [= <-] Hi. apply lookup_ge_None. simpl. lia.
Qed.

End ParserFacts.

(** ** The hints of a parsed challenge *)

Section Hints.

Implicit Types (raw : str) (hm : gmap str (option str)).

(** C1. For every text and every hint map the parse returns, and its
    hints are exactly three strings none of which is blank after trimming:
    slot [i] is the trimmed value stored under [hint_{i+1}] when there is
    one and it is not blank after trimming, and the (non-empty) default of
    slot [i] otherwise. *)
Theorem hints_total_invariant raw hm :
  ∃ d, parse raw hm = Ok d
    ∧ length (draft_hints d) = 3
    ∧ Forall (λ h, strip h ≠ []) (draft_hints d)
    ∧ draft_hints d = [expected_slot hm 0; expected_slot hm 1; expected_slot hm 2]
    ∧ Forall (λ h, h ≠ []) default_hints.
Proof.
  rewrite parse_eq. eexists. split; [reflexivity|]. simpl.
  split; [done|]. split; [|split].
  - repeat constructor; apply fill_slot_nonblank; lia.
  - rewrite <- !fill_slot_expected. reflexivity.
  - repeat constructor; by vm_compute.
Qed.

(** C6. Each slot is decided from its own key alone: a value that is
    absent, [None] or blank after trimming gives the slot its own default,
    and two parses whose hint maps agree on the key of a slot agree on that
    slot, whatever the other keys hold.  On the map
    [{hint_1: "  ", hint_2: "Check bounds", hint_3: None}] the hints are
    the first default, ["Check bounds"] and the third default. *)
Theorem hint_fallback_per_slot :
  (∀ raw hm d i,
     parse raw hm = Ok d → i < 3 →
     (hm !! hint_key (S i) = None ∨ hm !! hint_key (S i) = Some None
      ∨ ∃ v, hm !! hint_key (S i) = Some (Some v) ∧ strip v = []) →
     draft_hints d !! i = default_hints !! i)
  ∧ (∀ raw hm d raw' hm' d' i,
       parse raw hm = Ok d → parse raw' hm' = Ok d' →
       hm !! hint_key (S i) = hm' !! hint_key (S i) →
       draft_hints d !! i = draft_hints d' !! i)
  ∧ (∃ d default_0 default_1 default_2,
       parse []
         {[ py "hint_1" := Some (py "  ");
            py "hint_2" := Some (py "Check bounds");
            py "hint_3" := None ]} = Ok d
       ∧ default_hints = [default_0; default_1; default_2]
       ∧ draft_hints d = [default_0; py "Check bounds"; default_2]).
Proof.
  split; [|split].
  - intros raw hm d i Hp Hi Hcase.
    rewrite (parse_slot _ _ _ _ Hp Hi), fill_slot_expected.
    unfold expected_slot.
    assert (Some (default [] (default_hints !! i)) = default_hints !! i) as E.
    { destruct i as [|[|[|i]]]; [reflexivity..|lia]. }
    etrans; [|exact E]. f_equal.
    destruct Hcase as [-> | [-> | (v & -> & Hv)]]; [done..|].
    by rewrite bool_decide_eq_false_2 by (by intros ?).
  - intros raw hm d raw' hm' d' i Hp Hp' Hk.
    destruct (decide (i < 3)) as [Hi|Hi].
    + rewrite (parse_slot _ _ _ _ Hp Hi), (parse_slot _ _ _ _ Hp' Hi).
      unfold dict_get. by rewrite Hk.
    + rewrite (parse_slot_none _ _ _ _ Hp), (parse_slot_none _ _ _ _ Hp') by lia.
      done.
  - rewrite parse_eq. do 4 eexists. split; [reflexivity|].
    split; [reflexivity|]. by vm_compute.
Qed.

Lemma hint_fallback_per_slot_witness :
  let hm : gmap str (option str) :=
    {[ py "hint_1" := Some (py "  ");
       py "hint_2" := Some (py "Check bounds");
       py "hint_3" := None ]} in
  ∃ d, parse (py "TITLE: Bounds") hm = Ok d
    ∧ draft_hints d !! 0 = default_hints !! 0
    ∧ draft_hints d !! 2 = default_hints !! 2.
Proof.
  intros hm. rewrite parse_eq. eexists. split; [reflexivity|]. split.
  - apply (proj1 hint_fallback_per_slot (py "TITLE: Bounds") hm _ 0).
    + apply parse_eq.
    + lia.
    + right. right. exists (py "  "). by vm_compute.
  - apply (proj1 hint_fallback_per_slot (py "TITLE: Bounds") hm _ 2).
    + apply parse_eq.
    + lia.
    + right. left. by vm_compute.
Defined.

End Hints.

(** ** Title and description of a parsed challenge *)

Section TitleDescription.

Implicit Types (raw : str) (hm : gmap str (option str)).

(** C5. The parse is total: on every text and every hint map it returns
    a draft, whose title is not empty and whose hints are three strings not
    blank after trimming; on a text without marker and an empty hint map,
    and on the empty text, the draft is the all-defaults one. *)
Theorem parse_total_well_formed :
  (∀ raw hm, ∃ d, parse raw hm = Ok d
     ∧ draft_title d ≠ []
     ∧ length (draft_hints d) = 3
     ∧ Forall (λ h, strip h ≠ []) (draft_hints d))
  ∧ (∀ raw, markerless raw = true → parse raw ∅ = Ok all_defaults)
  ∧ parse [] ∅ = Ok all_defaults.
Proof.
  split; [|split].
  - intros raw hm. rewrite parse_eq. eexists. split; [reflexivity|]. simpl.
    split; [|split; [done|]].
    + unfold title_or_default.
      destruct (truthy _) eqn:E; [by apply truthy_true | by vm_compute].
    + repeat constructor; apply fill_slot_nonblank; lia.
  - intros raw Hm. rewrite parse_eq. unfold all_defaults, markerless in *.
    rewrite List.forallb_forall in Hm.
    assert (scan_lines (split_lines raw) = scan_init) as ->.
    { apply scan_from_idle; [|done]. apply Forall_forall. intros l Hl.
      apply list_elem_of_In, Hm, andb_true_iff in Hl as [H1 H2].
      by rewrite !negb_true_iff in H1, H2. }
    unfold dict_get. rewrite !lookup_empty. reflexivity.
  - rewrite parse_eq. unfold dict_get. rewrite !lookup_empty. reflexivity.
Qed.

Lemma parse_total_well_formed_witness :
  markerless (join_lines [py "Reverse a linked list"; py "in place"]) = true
  ∧ parse (join_lines [py "Reverse a linked list"; py "in place"]) ∅ = Ok all_defaults.
Proof.
  split; [by vm_compute|].
  apply (proj1 (proj2 parse_total_well_formed)). by vm_compute.
Defined.

(** C7. When several lines start with [TITLE:], the title is taken from
    the last of them: after the loop [title] is what that line alone
    assigns, whatever the earlier lines held, and the record gets it (or
    the placeholder when it is empty).  On ["TITLE: First\nTITLE: Second"]
    the title is ["Second"]. *)
Theorem last_title_wins :
  (∀ raw hm pre t post,
     split_lines raw = pre ++ t :: post →
     is_title_line t = true →
     Forall (λ l, is_title_line l = false) post →
     title (scan_lines (split_lines raw)) = title (scan_line scan_init t)
     ∧ ∃ d, parse raw hm = Ok d
         ∧ draft_title d = title_or_default (title (scan_line scan_init t)))
  ∧ (∃ d, parse (join_lines [py "TITLE: First"; py "TITLE: Second"]) ∅ = Ok d
        ∧ draft_title d = py "Second").
Proof.
  split.
  - intros raw hm pre t post Hsplit Ht Hpost.
    assert (title (scan_lines (split_lines raw)) = title (scan_line scan_init t)) as E.
    { rewrite Hsplit. unfold scan_lines. change (foldl scan_line) with scan_from.
      rewrite scan_from_app. change (t :: post) with ([t] ++ post).
      rewrite scan_from_app, scan_from_keeps_title by done.
      unfold scan_from. simpl. by rewrite !scan_line_title. }
    split; [done|]. rewrite parse_eq. eexists. split; [reflexivity|].
    simpl. by rewrite E.
  - rewrite parse_eq. eexists. split; [reflexivity|]. by vm_compute.
Qed.

Lemma last_title_wins_witness :
  let raw := join_lines [py "TITLE: First"; py "  TITLE: Second "; py "DESCRIPTION:"; py "text"] in
  title (scan_lines (split_lines raw)) = py "Second"
  ∧ ∃ d, parse raw ∅ = Ok d ∧ draft_title d = py "Second".
Proof.
  apply (proj1 last_title_wins _ ∅ [py "TITLE: First"] (py "  TITLE: Second ")
           [py "DESCRIPTION:"; py "text"]).
  - by vm_compute.
  - by vm_compute.
  - repeat constructor; by vm_compute.
Defined.

(** C8. Whatever follows the marker on a [DESCRIPTION:] line is discarded:
    the line leaves the description buffer as it was, and two texts that
    differ only in what follows the marker on such a line parse to the same
    draft. *)
Theorem description_marker_trailing_discarded :
  ∀ raw raw' hm pre m m' post,
    split_lines raw = pre ++ m :: post →
    split_lines raw' = pre ++ m' :: post →
    is_description_line m = true →
    is_description_line m' = true →
    (∀ st, description (scan_line st m) = description st)
    ∧ parse raw hm = parse raw' hm.
Proof.
  intros raw raw' hm pre m m' post H H' Hm Hm'. split.
  - intros st. by rewrite scan_line_description.
  - rewrite !parse_eq, H, H'. unfold scan_lines.
    rewrite !foldl_app. simpl.
    by rewrite !(scan_line_description _ _ Hm), !(scan_line_description _ _ Hm').
Qed.

Lemma description_marker_trailing_discarded_witness :
  let raw := join_lines [py "TITLE: T"; py "DESCRIPTION: dropped words"; py "Body"] in
  let raw' := join_lines [py "TITLE: T"; py "DESCRIPTION:"; py "Body"] in
  (∀ st, description (scan_line st (py "DESCRIPTION: dropped words")) = description st)
  ∧ parse raw ∅ = parse raw' ∅.
Proof.
  apply (description_marker_trailing_discarded _ _ ∅ [py "TITLE: T"]
           (py "DESCRIPTION: dropped words") (py "DESCRIPTION:") [py "Body"]);
    by vm_compute.
Defined.

End TitleDescription.

(** ** What a [HINT] line and an inner [TITLE:] do *)

Section Quirks.

Implicit Types (raw : str) (hm : gmap str (option str)).

(** A line after a [HINT] line is still appended to the description: the
    text cut before its [HINT] line has description ["A"], the whole text
    has ["A\nB"]. *)
Lemma hint_line_does_not_end_description :
  let cut := join_lines [py "DESCRIPTION:"; py "A"] in
  let raw := join_lines [py "DESCRIPTION:"; py "A"; py "HINT_1: foo"; py "B"] in
  ∃ d d_cut,
    parse raw ∅ = Ok d ∧ parse cut ∅ = Ok d_cut
    ∧ split_lines raw = split_lines cut ++ [py "HINT_1: foo"; py "B"]
    ∧ is_hint_line (py "HINT_1: foo") = true
    ∧ draft_description d_cut = py "A"
    ∧ draft_description d = join_lines [py "A"; py "B"]
    ∧ draft_description d ≠ draft_description d_cut.
Proof.
  intros cut raw. rewrite !parse_eq. do 2 eexists.
  split; [reflexivity|]. split; [reflexivity|]. by vm_compute.
Qed.

(** C2, amended. After the first [DESCRIPTION:] line, and as long as no
    [TITLE:] line follows, the description is made of the trimmed lines that
    are not blank and start neither with [DESCRIPTION:] nor with [HINT],
    each followed by a newline, the whole trimmed: a [HINT] line is skipped
    and the lines after it are still appended.  On
    ["DESCRIPTION:\nLine one\nLine two\nHINT_1: foo"] the description is
    ["Line one\nLine two"]. *)
Theorem description_skips_hint_lines :
  (∀ raw hm pre m body,
     split_lines raw = pre ++ m :: body →
     Forall (λ l, is_description_line l = false) pre →
     is_description_line m = true →
     Forall (λ l, is_title_line l = false) body →
     ∃ d, parse raw hm = Ok d
       ∧ draft_description d =
           strip (concat ((λ l, strip l ++ [NL])
                            <$> filter (λ l, accumulates l = true) body)))
  ∧ (∃ d, parse (join_lines [py "DESCRIPTION:"; py "Line one"; py "Line two";
                              py "HINT_1: foo"]) ∅ = Ok d
        ∧ draft_description d = join_lines [py "Line one"; py "Line two"]).
Proof.
  split.
  - intros raw hm pre m body Hsplit Hpre Hm Hbody.
    rewrite parse_eq. eexists. split; [reflexivity|]. simpl. f_equal.
    rewrite Hsplit. unfold scan_lines. change (foldl scan_line) with scan_from.
    rewrite scan_from_app. change (m :: body) with ([m] ++ body).
    rewrite scan_from_app.
    destruct (scan_from_no_description scan_init pre Hpre) as [Ed _]; [done|].
    unfold scan_from at 2. cbn [foldl]. rewrite (scan_line_description _ _ Hm).
    rewrite scan_from_in_description by done.
    cbn [description]. by rewrite Ed.
  - rewrite parse_eq. eexists. split; [reflexivity|]. by vm_compute.
Qed.

Lemma description_skips_hint_lines_witness :
  let raw := join_lines [py "TITLE: T"; py "DESCRIPTION:"; py "A"; py "HINT_1: foo"; py "B"] in
  ∃ d, parse raw ∅ = Ok d
    ∧ draft_description d =
        strip (concat ((λ l, strip l ++ [NL])
                 <$> filter (λ l, accumulates l = true)
                       [py "A"; py "HINT_1: foo"; py "B"])).
Proof.
  apply (proj1 description_skips_hint_lines _ ∅ [py "TITLE: T"] (py "DESCRIPTION:")
           [py "A"; py "HINT_1: foo"; py "B"]).
  - by vm_compute.
  - repeat constructor; by vm_compute.
  - by vm_compute.
  - repeat constructor; by vm_compute.
Defined.

(** C3 at a line whose title text holds the marker again: the code
    removes every [TITLE:] of the line, so the title is
    ["Fix the  parser"], not the remainder ["Fix the TITLE: parser"]. *)
Theorem title_inner_marker_removed :
  let line := py "TITLE: Fix the TITLE: parser" in
  is_title_line line = true
  ∧ title_remainder line = py "Fix the TITLE: parser"
  ∧ title (scan_line scan_init line) = py "Fix the  parser"
  ∧ ∃ d, parse line ∅ = Ok d
      ∧ draft_title d = py "Fix the  parser"
      ∧ draft_title d ≠ title_remainder line.
Proof.
  intros line. split; [by vm_compute|]. split; [by vm_compute|].
  split; [by vm_compute|].
  rewrite parse_eq. eexists. split; [reflexivity|]. by vm_compute.
Qed.

(** Where the text after the marker does not hold the marker again, the
    title is the remainder of the line, trimmed. *)
Lemma title_without_inner_marker st (l : str) :
  is_title_line l = true →
  occurs (py "TITLE:") (drop (length (py "TITLE:")) (strip l)) = false →
  title (scan_line st l) = title_remainder l.
Proof.
  intros Ht Hocc. rewrite (scan_line_title _ _ Ht). cbn [title].
  unfold title_remainder. unfold is_title_line in Ht.
  apply startswith_spec in Ht as [t Et]. rewrite Et in *.
  rewrite drop_app_length in *. f_equal.
  by apply (replace_leading 84 (py "ITLE:")).
Qed.

End Quirks.

(** ** The backfill of [correctness_level] *)

Section Backfill.

Import Migration.

(** Saving every row of a snapshot back under its key maps the table. *)
Lemma foldl_save_lookup (f : ChallengeSolution.t → ChallengeSolution.t)
    (rows : list (positive * ChallengeSolution.t))
    (db : gmap positive ChallengeSolution.t) (pk : positive) :
  NoDup rows.*1 →
  foldl (λ db row, <[row.1 := f row.2]> db) db rows !! pk =
    match (list_to_map rows : gmap positive ChallengeSolution.t) !! pk with
    | Some s => Some (f s)
    | None => db !! pk
    end.
Proof.
  revert db. induction rows as [|[k s] rows IH]; intros db Hnd; [done|].
  apply NoDup_cons in Hnd as [Hk Hnd]. cbn [foldl fst snd].
  rewrite IH by done. cbn [list_to_map foldr fst snd uncurry].
  change (foldr _ ∅ rows) with (list_to_map rows : gmap positive ChallengeSolution.t).
  destruct (decide (k = pk)) as [->|Hne].
  - rewrite (not_elem_of_list_to_map_1 rows pk Hk), !lookup_insert_eq. done.
  - by rewrite !lookup_insert_ne.
Qed.

Lemma set_default_correctness_level_lookup table pk :
  set_default_correctness_level table !! pk = backfill <$> table !! pk.
Proof.
  unfold set_default_correctness_level.
  rewrite foldl_save_lookup by apply NoDup_fst_map_to_list.
  rewrite list_to_map_to_list. by destruct (table !! pk).
Qed.

(** C9. The backfill keeps the keys of the table and, in every row,
    sets [correctness_level] to ['correct'] when [is_correct] holds and the
    field is missing, [None] or empty, to ['incorrect'] when [is_correct]
    does not hold and the field is missing, [None] or empty, and leaves a
    row whose field is a non-empty string as it is; no other field
    changes. *)
Theorem backfill_correctness_level :
  (∀ table pk, set_default_correctness_level table !! pk = None ↔ table !! pk = None)
  ∧ (∀ table pk s,
       table !! pk = Some s →
       ∃ s', set_default_correctness_level table !! pk = Some s'
         ∧ ChallengeSolution.challenge s' = ChallengeSolution.challenge s
         ∧ ChallengeSolution.user s' = ChallengeSolution.user s
         ∧ ChallengeSolution.solution_text s' = ChallengeSolution.solution_text s
         ∧ ChallengeSolution.is_correct s' = ChallengeSolution.is_correct s
         ∧ ChallengeSolution.ai_feedback s' = ChallengeSolution.ai_feedback s
         ∧ ChallengeSolution.correctness_level s' =
             match ChallengeSolution.correctness_level s with
             | PyStr (c :: l) => PyStr (c :: l)
             | PyStr [] | PyNone | NoAttr =>
               if ChallengeSolution.is_correct s
               then PyStr (py "correct") else PyStr (py "incorrect")
             end
         ∧ (∀ c l, ChallengeSolution.correctness_level s = PyStr (c :: l) → s' = s)).
Proof.
  split.
  - intros table pk. rewrite set_default_correctness_level_lookup.
    apply fmap_None.
  - intros table pk s Hs. exists (backfill s).
    rewrite set_default_correctness_level_lookup, Hs.
    split; [done|]. unfold backfill, with_level.
    destruct s as [ch us tx ok lv fb]. cbn.
    destruct ok, lv as [| |[|c l]]; cbn; repeat split; try done;
      by intros ???.
Qed.

Lemma backfill_correctness_level_witness :
  let row ok lv := ChallengeSolution.Make 1 (py "ada") (py "x = 1") ok lv (py "Nice") in
  let table : gmap positive ChallengeSolution.t :=
    {[ 1%positive := row true (PyStr []);
       2%positive := row false PyNone;
       3%positive := row false (PyStr (py "partially_correct")) ]} in
  ∃ s', set_default_correctness_level table !! 2%positive = Some s'
    ∧ ChallengeSolution.correctness_level s' = PyStr (py "incorrect").
Proof.
  intros row table.
  destruct (proj2 backfill_correctness_level table 2%positive (row false PyNone))
    as (s' & Hs' & _ & _ & _ & _ & _ & Hl & _); [by vm_compute|].
  exists s'. split; [exact Hs'|exact Hl].
Defined.

End Backfill.

(** ** The request handlers *)

Section HandlerFacts.

Import Views.

Variable get_challenge_feedback : str → Challenge.t → str → res str.
Variable generate_new_challenge : str → str → str → res Generated.
Variable ChallengeSolutionForm : gmap str str → option ChallengeSolution.t.
Variable challenge_save_fault : Challenge.t → option exn.
Variable solution_save_fault : ChallengeSolution.t → option exn.

Lemma bind_Ok {A B} (m : M A) (f : A → M B) w a w' :
  m w = (Ok a, w') → (m ≫= f) w = f a w'.
Proof. unfold mbind, M_bind. by intros ->. Qed.

Lemma bind_Raise {A B} (m : M A) (f : A → M B) w e w' :
  m w = (Raise e, w') → (m ≫= f) w = (Raise e, w').
Proof. unfold mbind, M_bind. by intros ->. Qed.

Lemma try_except_Ok {A} (m : M A) h w a w' :
  m w = (Ok a, w') → try_except m h w = (Ok a, w').
Proof. unfold try_except. by intros ->. Qed.

Lemma try_except_Raise {A} (m : M A) h w e w' :
  m w = (Raise e, w') → try_except m h w = h e w'.
Proof. unfold try_except. by intros ->. Qed.

(** C4, amended. When the AI feedback call raises during a valid POST to
    an approved challenge, the exception is caught; provided the record
    store's save does not itself fail, the solution is saved as a new
    record, the success message is queued and the handler redirects to the
    challenge.  The saved [ai_feedback] is the fallback text with the
    requesting user's name in it: the same for every failing request of
    that user. *)
Theorem feedback_failure_still_saves request pk w c form_solution e :
  let saved :=
    ChallengeSolution.Make pk (username request)
      (ChallengeSolution.solution_text form_solution) true (PyStr (py "correct"))
      (fallback_feedback (username request)) in
  approved_challenges w !! pk = Some c →
  method request = py "POST" →
  ChallengeSolutionForm (POST request) = Some form_solution →
  get_challenge_feedback (ChallengeSolution.solution_text form_solution) c
    (username request) = Raise e →
  solution_save_fault saved = None →
  ∃ w' new_pk,
    submit_solution get_challenge_feedback ChallengeSolutionForm solution_save_fault
      request pk w = (Ok (Redirect (py "challenge_detail") pk), w')
    ∧ solutions w !! new_pk = None
    ∧ solutions w' = <[new_pk := saved]> (solutions w)
    ∧ ChallengeSolution.ai_feedback saved = fallback_feedback (username request)
    ∧ flash w' =
        flash w ++ [(Success,
                     py "Your solution has been submitted! Check out the AI feedback.")]
    ∧ challenges w' = challenges w.
Proof.
  intros saved Hc Hpost Hform Hai Hsave.
  exists (MkWorld (challenges w) (<[fresh (dom (solutions w)) := saved]> (solutions w))
            (flash w ++ [(Success,
               py "Your solution has been submitted! Check out the AI feedback.")])
            (stdout w ++ [py "Getting AI feedback for challenge solution: "
                          ++ slice_to 100 (ChallengeSolution.solution_text form_solution)
                          ++ py "...";
                          py "Error getting AI feedback: " ++ exn_str e])),
    (fresh (dom (solutions w))).
  split; [|split; [|done]].
  - unfold submit_solution.
    erewrite bind_Ok; [|unfold get_object_or_404; rewrite Hc; reflexivity].
    rewrite bool_decide_eq_true_2, Hform by done.
    erewrite bind_Ok; [reflexivity|].
    erewrite try_except_Ok; [reflexivity|].
    erewrite bind_Ok; cycle 1.
    { unfold get_ai_feedback. erewrite try_except_Raise; cycle 1.
      { unfold mbind, M_bind, print, lift. cbn. rewrite Hai. reflexivity. }
      unfold mbind, M_bind, print, mret, M_ret. cbn. reflexivity. }
    erewrite bind_Ok; cycle 1.
    { unfold save_solution.
      match goal with
      | |- context [solution_save_fault ?s] =>
        change (solution_save_fault s) with (solution_save_fault saved)
      end.
      rewrite Hsave. reflexivity. }
    unfold add_message. cbn. by rewrite <- (assoc_L (++)).
  - apply not_elem_of_dom, is_fresh.
Qed.

(** What [generate_ai_challenge] does to the challenge table: nothing, or
    one insertion of an AI-generated, approved record under a fresh key. *)
Lemma generate_ai_challenge_inserts request w resp w' :
  generate_ai_challenge generate_new_challenge challenge_save_fault request w
    = (resp, w') →
  challenges w' = challenges w
  ∨ ∃ c, Challenge.is_ai_generated c = true ∧ Challenge.is_approved c = true
      ∧ challenges w' = <[fresh (dom (challenges w)) := c]> (challenges w).
Proof.
  unfold generate_ai_challenge, generate_and_save, try_except.
  unfold mbind, M_bind, lift, save_challenge, add_message, print, mret, M_ret.
  case_bool_decide; [|intros [= <- <-]; by left].
  destruct (generate_new_challenge _ _ _) as [g|e]; [|intros [= <- <-]; by left].
  rewrite parse_eq.
  destruct (challenge_save_fault _) as [e|] eqn:Ef; intros [= <- <-]; [by left|].
  right. eexists. split; [|split]; [| |reflexivity]; reflexivity.
Qed.

(** C10. Whatever the request, the AI result and the store, a record that
    [generate_ai_challenge] adds to the challenge table has
    [is_ai_generated] and [is_approved] set, so the approved-only queryset
    of the listing holds it and the approved-only lookup of the detail view
    finds it; and a POST whose generation and save succeed does add such a
    record and redirects to it. *)
Theorem ai_challenge_auto_approved :
  (∀ request w resp w' pk c,
     generate_ai_challenge generate_new_challenge challenge_save_fault request w
       = (resp, w') →
     challenges w !! pk = None →
     challenges w' !! pk = Some c →
     Challenge.is_ai_generated c = true
     ∧ Challenge.is_approved c = true
     ∧ approved_challenges w' !! pk = Some c
     ∧ get_object_or_404 pk w' = (Ok c, w'))
  ∧ (∀ request w g,
       method request = py "POST" →
       generate_new_challenge
         (post_get (POST request) (py "difficulty") (py "beginner"))
         (post_get (POST request) (py "topic") (py "programming"))
         (username request) = Ok g →
       (∀ c, challenge_save_fault c = None) →
       ∃ w' pk c,
         generate_ai_challenge generate_new_challenge challenge_save_fault request w
           = (Ok (Redirect (py "challenge_detail") pk), w')
         ∧ challenges w !! pk = None
         ∧ challenges w' !! pk = Some c
         ∧ parse (raw g) (gen_hints g) =
             Ok (Draft (Challenge.title c) (Challenge.description c) (Challenge.hints c))).
Proof.
  split.
  - intros request w resp w' pk c Hrun Hnew Hpk.
    apply generate_ai_challenge_inserts in Hrun as [E | (c' & Hai & Happ & E)].
    { rewrite E in Hpk. congruence. }
    assert (c = c') as ->.
    { rewrite E in Hpk. apply lookup_insert_Some in Hpk as [[_ ->] | [_ Hpk]]; congruence. }
    assert (approved_challenges w' !! pk = Some c') as Hq.
    { unfold approved_challenges. by apply map_lookup_filter_Some. }
    repeat split; [done..|]. unfold get_object_or_404. by rewrite Hq.
  - intros request w g Hpost Hgen Hsave.
    unfold generate_ai_challenge, generate_and_save, try_except.
    unfold mbind, M_bind, lift, save_challenge, add_message, print, mret, M_ret.
    rewrite bool_decide_eq_true_2, Hgen, parse_eq, Hsave by done.
    do 3 eexists. split; [reflexivity|]. cbn.
    split; [apply not_elem_of_dom, is_fresh|].
    split; [apply lookup_insert_eq|]. reflexivity.
Qed.

End HandlerFacts.

(** ** The handlers on sample requests *)

Section HandlerSamples.

Import Views Samples.

(** Two users whose feedback call fails get different [ai_feedback] texts:
    the fallback is not one message for every failing request. *)
Lemma fallback_feedback_differs_between_users :
  let run name :=
    (submit_solution ai_down text_form no_fault (post_solution name) 1 world0).2 in
  ∃ pk s_ada s_bob,
    solutions (run (py "ada")) !! pk = Some s_ada
    ∧ solutions (run (py "bob")) !! pk = Some s_bob
    ∧ ChallengeSolution.ai_feedback s_ada = fallback_feedback (py "ada")
    ∧ ChallengeSolution.ai_feedback s_bob = fallback_feedback (py "bob")
    ∧ ChallengeSolution.ai_feedback s_ada ≠ ChallengeSolution.ai_feedback s_bob.
Proof.
  intros run. exists 1%positive. do 2 eexists.
  split; [by vm_compute|]. split; [by vm_compute|]. by vm_compute.
Qed.

Lemma feedback_failure_still_saves_witness :
  let saved :=
    ChallengeSolution.Make 1 (py "ada") (py "use a dict") true (PyStr (py "correct"))
      (fallback_feedback (py "ada")) in
  ∃ w' new_pk,
    submit_solution ai_down text_form no_fault (post_solution (py "ada")) 1 world0
      = (Ok (Redirect (py "challenge_detail") 1), w')
    ∧ solutions world0 !! new_pk = None
    ∧ solutions w' = <[new_pk := saved]> (solutions world0)
    ∧ ChallengeSolution.ai_feedback saved = fallback_feedback (py "ada")
    ∧ flash w' =
        flash world0 ++ [(Success,
                     py "Your solution has been submitted! Check out the AI feedback.")]
    ∧ challenges w' = challenges world0.
Proof.
  apply (feedback_failure_still_saves ai_down text_form no_fault
           (post_solution (py "ada")) 1 world0 two_sum
           (ChallengeSolution.Make 1 [] (py "use a dict") false NoAttr [])
           (Exception (py "Connection timed out")));
    by vm_compute.
Defined.

Lemma ai_challenge_auto_approved_witness :
  ∃ w' pk c,
    generate_ai_challenge ai_up no_fault post_generate world0
      = (Ok (Redirect (py "challenge_detail") pk), w')
    ∧ challenges w' !! pk = Some c
    ∧ Challenge.title c = py "Sort an Array"
    ∧ Challenge.is_ai_generated c = true
    ∧ Challenge.is_approved c = true
    ∧ approved_challenges w' !! pk = Some c.
Proof.
  destruct (proj2 (ai_challenge_auto_approved ai_up no_fault) post_generate world0
              generated)
    as (w' & pk & c & Hrun & Hnew & Hpk & Hparse);
    [by vm_compute | by vm_compute | done |].
  destruct (proj1 (ai_challenge_auto_approved ai_up no_fault) post_generate world0
              _ w' pk c Hrun Hnew Hpk) as (Hai & Happ & Hq & _).
  exists w', pk, c. repeat split; try done.
  rewrite parse_eq in Hparse. by injection Hparse as <- _ _.
Defined.

End HandlerSamples.

(** * Further properties of the parse *)

Section TrimFacts.

Implicit Types (s t : str) (c : N).

Lemma lstrip_elem s c : c ∈ lstrip s → c ∈ s.
Proof.
  induction s as [|a s IH]; simpl; [done|].
  destruct (isspace a); [|done]. intros H. right. by apply IH.
Qed.

Lemma strip_elem s c : c ∈ strip s → c ∈ s.
Proof.
  unfold strip, rstrip. rewrite elem_of_reverse. intros H%lstrip_elem.
  rewrite elem_of_reverse in H. by apply lstrip_elem.
Qed.

Lemma replace_scan_elem old k s c : c ∈ replace_scan old [] k s → c ∈ s.
Proof.
  revert k. induction s as [|a s IH]; intros k; [done|]. cbn [replace_scan].
  destruct k as [|k].
  - destruct (startswith (a :: s) old).
    + intros H. right. by eapply IH.
    + intros [->|H]%elem_of_cons; [left|right; by eapply IH].
  - intros H. right. by eapply IH.
Qed.

Lemma replace_elem s old c : c ∈ replace s old [] → c ∈ s.
Proof.
  unfold replace. destruct old as [|a old]; [|apply replace_scan_elem].
  cbn [app]. induction s as [|b s IH]; [done|].
  cbn. intros [->|H]%elem_of_cons; [left|right; by apply IH].
Qed.

(** The pieces of a split do not hold the separator. *)
Lemma split_no_sep sep s l : l ∈ split sep s → sep ∉ l.
Proof.
  revert l. induction s as [|c s IH]; intros l; simpl.
  - intros ->%list_elem_of_singleton. apply not_elem_of_nil.
  - destruct (c =? sep)%N eqn:E.
    + intros [->|H]%elem_of_cons; [apply not_elem_of_nil | by apply IH].
    + apply N.eqb_neq in E. destruct (split sep s) as [|l0 ls] eqn:Es.
      * intros ->%list_elem_of_singleton. intros [->|H]%elem_of_cons; [done|].
        by apply not_elem_of_nil in H.
      * intros [->|H]%elem_of_cons.
        -- intros [->|H]%elem_of_cons; [done|]. by apply (IH l0); [left|].
        -- apply IH. by right.
Qed.

(** A trimmed, non-empty string ends with a non-space. *)
Lemma strip_last s : strip s ≠ [] → ∃ t c, strip s = t ++ [c] ∧ isspace c = false.
Proof.
  unfold strip, rstrip. intros H.
  destruct (lstrip (reverse (lstrip s))) as [|c r] eqn:E; [done|].
  exists (reverse r), c. split; [by rewrite reverse_cons|].
  by apply lstrip_head in E.
Qed.

Lemma rstrip_snoc_space s c : isspace c = true → rstrip (s ++ [c]) = rstrip s.
Proof.
  intros Hc. unfold rstrip. rewrite reverse_app. simpl. by rewrite Hc.
Qed.

Lemma rstrip_snoc_nonspace s c : isspace c = false → rstrip (s ++ [c]) = s ++ [c].
Proof.
  intros Hc. unfold rstrip. rewrite reverse_app. simpl. rewrite Hc.
  change (c :: reverse s) with ([c] ++ reverse s).
  by rewrite reverse_app, reverse_involutive.
Qed.

End TrimFacts.

Section ParseLines.

Implicit Types (raw : str) (hm : gmap str (option str)) (st : scan) (l : str).

(** The loop trims every line itself. *)
Lemma scan_line_strip st l : scan_line st (strip l) = scan_line st l.
Proof. unfold scan_line. by rewrite strip_fixed. Qed.

Lemma scan_from_effective st (ls : list str) :
  scan_from st (filter (λ l, l ≠ []) (strip <$> ls)) = scan_from st ls.
Proof.
  revert st. induction ls as [|l ls IH]; intros st; [done|].
  rewrite fmap_cons, filter_cons. unfold scan_from in *. cbn [foldl].
  destruct (decide (strip l ≠ [])) as [Hl|Hl].
  - cbn [foldl]. by rewrite scan_line_strip, IH.
  - apply dec_stable in Hl. by rewrite (scan_line_blank _ _ Hl), IH.
Qed.

(** X1. The parse reads the text only through its trimmed, non-blank
    lines: two texts with the same such lines give the same result, so
    blank lines, indentation, trailing spaces and carriage returns do not
    matter. *)
Theorem parse_reads_effective_lines raw raw' hm :
  effective_lines raw = effective_lines raw' →
  parse raw hm = parse raw' hm.
Proof.
  intros H. rewrite !parse_eq. unfold scan_lines.
  change (foldl scan_line) with scan_from.
  rewrite <- (scan_from_effective _ (split_lines raw)).
  rewrite <- (scan_from_effective _ (split_lines raw')).
  change (filter _ (strip <$> split_lines raw)) with (effective_lines raw).
  change (filter _ (strip <$> split_lines raw')) with (effective_lines raw').
  by rewrite H.
Qed.

Lemma parse_reads_effective_lines_witness :
  parse (join_lines [[13%N]; py "  TITLE: Sort " ++ [13%N]; []; py "DESCRIPTION:" ++ [13%N];
                     [9%N] ++ py "Do it fast" ++ [13%N]; py "   "]) ∅
  = parse (join_lines [py "TITLE: Sort"; py "DESCRIPTION:"; py "Do it fast"]) ∅.
Proof. apply parse_reads_effective_lines. by vm_compute. Defined.

(** One iteration leaves [description] alone or appends the trimmed line,
    and it appends plain lines only. *)
Lemma scan_line_appends st l :
  description (scan_line st l) = description st
  ∨ (description (scan_line st l) = description st ++ strip l ++ [NL]
     ∧ plain_line (strip l)).
Proof.
  unfold scan_line, plain_line.
  destruct (truthy (strip l)) eqn:Et; cbn [negb]; [|by left].
  destruct (startswith (strip l) (py "TITLE:")) eqn:E1; [by left|].
  destruct (startswith (strip l) (py "DESCRIPTION:")) eqn:E2; [by left|].
  destruct (startswith (strip l) (py "HINT")) eqn:E3;
    destruct (bool_decide (current_section st = SecDescription));
    cbn [negb andb]; [by left..| |by left].
  right. split; [done|]. by apply truthy_true in Et.
Qed.

Lemma scan_from_appends st (ls : list str) :
  ∃ kept,
    description (scan_from st ls) = description st ++ appended kept
    ∧ kept `sublist_of` filter (λ l, l ≠ []) (strip <$> ls)
    ∧ Forall (λ l, plain_line l ∧ strip l = l) kept.
Proof.
  revert st. induction ls as [|l ls IH]; intros st.
  { exists []. unfold appended. simpl. by rewrite app_nil_r. }
  unfold scan_from in *. cbn [foldl].
  destruct (IH (scan_line st l)) as (kept & E & Hsub & Hall).
  rewrite fmap_cons, filter_cons.
  destruct (scan_line_appends st l) as [E0 | [E0 Hp]].
  - exists kept. rewrite E, E0. split; [done|]. split; [|done].
    case_decide; [by apply sublist_cons | done].
  - exists (strip l :: kept). rewrite E, E0. split; [|split].
    + unfold appended. cbn [fmap list_fmap concat]. by rewrite <- !(assoc_L (++)).
    + rewrite decide_True by apply Hp. by apply sublist_skip.
    + constructor; [|done]. split; [done | apply strip_fixed].
Qed.

Lemma appended_join (kept : list str) :
  kept ≠ [] → appended kept = join_lines kept ++ [NL].
Proof.
  induction kept as [|l kept IH]; [done|]. intros _.
  destruct kept as [|l' kept].
  - unfold appended. simpl. by rewrite app_nil_r.
  - change (appended (l :: l' :: kept)) with ((l ++ [NL]) ++ appended (l' :: kept)).
    rewrite IH by done.
    change (join_lines (l :: l' :: kept)) with (l ++ NL :: join_lines (l' :: kept)).
    by rewrite <- !(assoc_L (++)).
Qed.

Lemma join_lines_head (kept : list str) l c (t : str) :
  l = c :: t → ∃ u, join_lines (l :: kept) = c :: u.
Proof. intros ->. destruct kept; simpl; eauto. Qed.

Lemma join_lines_last (kept : list str) :
  kept ≠ [] →
  Forall (λ l, plain_line l ∧ strip l = l) kept →
  ∃ t c, join_lines kept = t ++ [c] ∧ isspace c = false.
Proof.
  induction kept as [|l kept IH]; [done|]. intros _ Hall.
  apply Forall_cons in Hall as [[Hp Hl] Hall].
  destruct kept as [|l' kept].
  - cbn [join_lines]. rewrite <- Hl. apply strip_last. rewrite Hl. apply Hp.
  - destruct IH as (t & c & E & Hc); [done..|].
    exists (l ++ NL :: t), c. cbn [join_lines] in *. rewrite E.
    split; [|done]. by rewrite <- (assoc_L (++)).
Qed.

(** Trimming the buffer removes exactly its last newline. *)
Lemma strip_appended (kept : list str) :
  Forall (λ l, plain_line l ∧ strip l = l) kept →
  strip (appended kept) = join_lines kept.
Proof.
  intros Hall. destruct kept as [|l kept]; [done|].
  rewrite appended_join by done.
  destruct (join_lines_last (l :: kept)) as (t & c & E & Hc); [done..|].
  pose proof Hall as [[Hp Hl] _]%Forall_cons.
  destruct l as [|a l'] eqn:El; [by destruct Hp|]. rewrite <- El in *.
  destruct (join_lines_head kept l a l' El) as [u Eu].
  assert (isspace a = false) as Ha by (eapply strip_head; by rewrite Hl).
  unfold strip. rewrite Eu. cbn [app lstrip]. rewrite Ha.
  change (a :: u ++ [NL]) with ((a :: u) ++ [NL]).
  rewrite rstrip_snoc_space by done. rewrite <- Eu, E.
  by apply rstrip_snoc_nonspace.
Qed.

Lemma split_line sep (l : str) : sep ∉ l → split sep l = [l].
Proof.
  induction l as [|c l IH]; [done|]. intros [Hc Hl]%not_elem_of_cons.
  simpl. apply N.eqb_neq in Hc. rewrite N.eqb_sym, Hc, IH by done. done.
Qed.

Lemma split_line_app sep (l s : str) :
  sep ∉ l → split sep (l ++ sep :: s) = l :: split sep s.
Proof.
  induction l as [|c l IH]; intros Hl.
  - simpl. by rewrite N.eqb_refl.
  - apply not_elem_of_cons in Hl as [Hc Hl]. cbn [app split].
    apply N.eqb_neq in Hc. rewrite N.eqb_sym, Hc, IH by done. done.
Qed.

(** Splitting what [join_lines] built gives the lines back. *)
Lemma split_join_lines (ls : list str) :
  ls ≠ [] → Forall (λ l, NL ∉ l) ls → split NL (join_lines ls) = ls.
Proof.
  induction ls as [|l ls IH]; [done|]. intros _ [Hl Hls]%Forall_cons.
  destruct ls as [|l' ls].
  - by apply split_line.
  - cbn [join_lines]. rewrite split_line_app by done. f_equal. by apply IH.
Qed.

Lemma effective_lines_no_newline raw l : l ∈ effective_lines raw → NL ∉ l.
Proof.
  unfold effective_lines, split_lines.
  intros [_ H]%list_elem_of_filter. apply list_elem_of_fmap in H as (l0 & -> & H).
  intros Hin%strip_elem. by apply (split_no_sep _ _ _ H).
Qed.

End ParseLines.

Section ParseShape.

Implicit Types (raw : str) (hm : gmap str (option str)) (st : scan) (l : str).

(** X2. The description is made of lines of the text and nothing else:
    it is the join, with single newlines, of some of the trimmed non-blank
    lines, in their order, none of which starts with [TITLE:],
    [DESCRIPTION:] or [HINT]; splitting a non-empty description at the
    newlines gives these lines back. *)
Theorem description_is_kept_lines raw hm d :
  parse raw hm = Ok d →
  ∃ kept,
    draft_description d = join_lines kept
    ∧ kept `sublist_of` effective_lines raw
    ∧ Forall plain_line kept
    ∧ (kept ≠ [] → split NL (draft_description d) = kept).
Proof.
  rewrite parse_eq. intros [= <-]. cbn [draft_description].
  destruct (scan_from_appends scan_init (split_lines raw)) as (kept & E & Hsub & Hall).
  exists kept. unfold scan_lines. change (foldl scan_line) with scan_from.
  rewrite E. cbn [description scan_init app]. rewrite strip_appended by done.
  split; [done|]. split; [done|]. split.
  - eapply Forall_impl; [exact Hall|]. by intros l [? _].
  - intros Hne. apply split_join_lines; [done|].
    apply Forall_forall. intros l Hl.
    apply (effective_lines_no_newline raw). by eapply elem_of_sublist.
Qed.

Lemma description_is_kept_lines_witness :
  ∃ d kept,
    parse (join_lines [py "intro"; py "DESCRIPTION: x"; py "  Line one "; [];
                       py "HINT_1: foo"; py "Line two"; py "TITLE: T"; py "late"]) ∅
      = Ok d
    ∧ draft_description d = join_lines kept
    ∧ Forall plain_line kept
    ∧ kept = [py "Line one"; py "Line two"].
Proof.
  destruct (description_is_kept_lines
              (join_lines [py "intro"; py "DESCRIPTION: x"; py "  Line one "; [];
                           py "HINT_1: foo"; py "Line two"; py "TITLE: T"; py "late"])
              ∅ _ (parse_eq _ _)) as (kept & E & _ & Hp & Hs).
  do 2 eexists. split; [apply parse_eq|]. split; [exact E|]. split; [exact Hp|].
  rewrite <- Hs.
  - by vm_compute.
  - intros ->. revert E. by vm_compute.
Defined.

(** Every assignment to [title] stores a trimmed string without newline,
    as long as the lines hold no newline. *)
Lemma scan_from_title_shape st (ls : list str) :
  Forall (λ l, NL ∉ l) ls →
  strip (title st) = title st ∧ NL ∉ title st →
  strip (title (scan_from st ls)) = title (scan_from st ls)
  ∧ NL ∉ title (scan_from st ls).
Proof.
  intros H. revert st. induction H as [|l ls Hl _ IH]; intros st Hst; [done|].
  unfold scan_from in *. cbn [foldl]. apply IH.
  destruct (is_title_line l) eqn:Et.
  - rewrite (scan_line_title _ _ Et). cbn [title]. split; [apply strip_fixed|].
    by intros ?%strip_elem%replace_elem%strip_elem.
  - by rewrite scan_line_keeps_title.
Qed.

(** X3. The title of a draft is a single trimmed line: it is not empty,
    has no leading or trailing whitespace and holds no newline.  The
    description has no leading or trailing whitespace either. *)
Theorem draft_title_single_trimmed_line raw hm d :
  parse raw hm = Ok d →
  draft_title d ≠ []
  ∧ strip (draft_title d) = draft_title d
  ∧ (NL ∉ draft_title d)
  ∧ strip (draft_description d) = draft_description d.
Proof.
  rewrite parse_eq. intros [= <-]. cbn [draft_title draft_description].
  destruct (scan_from_title_shape scan_init (split_lines raw)) as [Ht Hn].
  { apply Forall_forall. intros l Hl. by apply (split_no_sep _ _ _ Hl). }
  { split; [done | apply not_elem_of_nil]. }
  unfold scan_lines. change (foldl scan_line) with scan_from.
  unfold title_or_default.
  destruct (truthy (title (scan_from scan_init (split_lines raw)))) eqn:E.
  - split; [by apply truthy_true|]. split; [done|]. split; [done|]. apply strip_fixed.
  - split; [by vm_compute|]. split; [by vm_compute|]. split; [|apply strip_fixed].
    apply (bool_decide_unpack _). by vm_compute.
Qed.

(** X4. A text none of whose lines starts with [DESCRIPTION:] has the
    empty description, whatever its other lines hold; a text none of whose
    lines starts with [TITLE:] gets the placeholder title. *)
Theorem missing_marker_defaults :
  (∀ raw hm d,
     Forall (λ l, is_description_line l = false) (split_lines raw) →
     parse raw hm = Ok d → draft_description d = [])
  ∧ (∀ raw hm d,
       Forall (λ l, is_title_line l = false) (split_lines raw) →
       parse raw hm = Ok d → draft_title d = py "AI Generated Challenge").
Proof.
  split; intros raw hm d H; rewrite parse_eq; intros [= <-];
    cbn [draft_title draft_description];
    unfold scan_lines; change (foldl scan_line) with scan_from.
  - destruct (scan_from_no_description scan_init _ H) as [-> _]; done.
  - by rewrite scan_from_keeps_title.
Qed.

Lemma missing_marker_defaults_witness :
  (∃ d, parse (join_lines [py "TITLE: Sort"; py "Sort the list"; py "HINT_1: x"]) ∅ = Ok d
      ∧ draft_description d = [])
  ∧ (∃ d, parse (join_lines [py "Sort"; py "DESCRIPTION:"; py "Sort the list"]) ∅ = Ok d
        ∧ draft_title d = py "AI Generated Challenge").
Proof.
  split; eexists; (split; [apply parse_eq|]).
  - eapply (proj1 missing_marker_defaults); [|apply parse_eq].
    apply (bool_decide_unpack _). by vm_compute.
  - eapply (proj2 missing_marker_defaults); [|apply parse_eq].
    apply (bool_decide_unpack _). by vm_compute.
Defined.

(** X5. A [TITLE:] line closes the description section: when no
    [DESCRIPTION:] line follows it, the lines after it add nothing, and the
    description is what the lines before it had accumulated. *)
Theorem title_line_closes_description raw hm d pre t post :
  split_lines raw = pre ++ t :: post →
  is_title_line t = true →
  Forall (λ l, is_description_line l = false) post →
  parse raw hm = Ok d →
  draft_description d = strip (description (scan_lines pre)).
Proof.
  intros Hsplit Ht Hpost. rewrite parse_eq. intros [= <-].
  cbn [draft_description]. f_equal. rewrite Hsplit.
  unfold scan_lines. change (foldl scan_line) with scan_from.
  rewrite scan_from_app. change (t :: post) with ([t] ++ post).
  rewrite scan_from_app.
  destruct (scan_from_no_description (scan_from (scan_from scan_init pre) [t]) post Hpost)
    as [-> _].
  - unfold scan_from at 1. cbn [foldl]. by rewrite (scan_line_title _ _ Ht).
  - unfold scan_from at 1. cbn [foldl]. by rewrite (scan_line_title _ _ Ht).
Qed.

Lemma title_line_closes_description_witness :
  ∃ d, parse (join_lines [py "DESCRIPTION:"; py "A"; py "TITLE: T"; py "B"]) ∅ = Ok d
    ∧ draft_description d = py "A".
Proof.
  eexists. split; [apply parse_eq|].
  etrans.
  - apply (title_line_closes_description
             (join_lines [py "DESCRIPTION:"; py "A"; py "TITLE: T"; py "B"]) ∅ _
             [py "DESCRIPTION:"; py "A"] (py "TITLE: T") [py "B"]).
    + by vm_compute.
    + by vm_compute.
    + repeat constructor; by vm_compute.
    + apply parse_eq.
  - by vm_compute.
Defined.

End ParseShape.

Lemma draft_title_single_trimmed_line_witness :
  ∃ d, parse (join_lines [py "  TITLE:   Sort an Array  "; py "DESCRIPTION:"; py " x "]) ∅ = Ok d
    ∧ draft_title d = py "Sort an Array"
    ∧ strip (draft_title d) = draft_title d
    ∧ (NL ∉ draft_title d).
Proof.
  eexists. split; [apply parse_eq|]. split; [by vm_compute|].
  destruct (draft_title_single_trimmed_line
              (join_lines [py "  TITLE:   Sort an Array  "; py "DESCRIPTION:"; py " x "])
              ∅ _ (parse_eq _ _)) as (_ & Ht & Hn & _).
  split; [exact Ht | exact Hn].
Defined.

(** * Further properties of the handlers *)

Section HandlerOutcomes.

Import Views.

Variable get_challenge_feedback : str → Challenge.t → str → res str.
Variable generate_new_challenge : str → str → str → res Generated.
Variable ChallengeSolutionForm : gmap str str → option ChallengeSolution.t.
Variable challenge_save_fault : Challenge.t → option exn.
Variable solution_save_fault : ChallengeSolution.t → option exn.


Ltac run_handler :=
  unfold submit_solution, get_ai_feedback, generate_ai_challenge, generate_and_save,
    try_except, get_object_or_404, save_solution, save_challenge, add_message,
    print, lift, mbind, M_bind, mret, M_ret.

(** What [submit_solution] does to the world: the challenges stay, and the
    solutions stay or get one record under a fresh key, built from the
    valid form of a POST. *)
Lemma submit_solution_effect request pk w r w' :
  submit_solution get_challenge_feedback ChallengeSolutionForm
      solution_save_fault request pk w = (r, w') →
  challenges w' = challenges w
  ∧ (solutions w' = solutions w
     ∨ ∃ f fb,
         method request = py "POST"
         ∧ ChallengeSolutionForm (POST request) = Some f
         ∧ solutions w' =
             <[fresh (dom (solutions w)) :=
                 ChallengeSolution.Make pk (username request)
                   (ChallengeSolution.solution_text f) true (PyStr (py "correct")) fb]>
               (solutions w)).
Proof.
  run_handler.
  destruct (approved_challenges w !! pk) as [c|]; [|intros [= <- <-]; by split; [|left]].
  case_bool_decide as Hm; [|intros [= <- <-]; by split; [|left]].
  destruct (ChallengeSolutionForm (POST request)) as [f|] eqn:Ef;
    [|intros [= <- <-]; by split; [|left]].
  cbn.
  destruct (get_challenge_feedback _ _ _) as [fb|e]; cbn;
    destruct (solution_save_fault _) as [e'|]; cbn; intros [= <- <-]; cbn;
    (split; [done|]); try (by left); right; eauto.
Qed.

(** X6. [submit_solution] lets no failure of the AI service, the form or
    the record store escape: for a challenge that is missing or not
    approved it raises [Http404] and changes nothing; otherwise it returns
    the redirect to the challenge, whatever the collaborators do, leaves the
    challenges as they are and keeps every solution already stored. *)
Theorem submit_solution_outcome request pk w :
  match approved_challenges w !! pk with
  | None =>
    submit_solution get_challenge_feedback ChallengeSolutionForm
      solution_save_fault request pk w
      = (Raise (Http404 (py "No Challenge matches the given query.")), w)
  | Some _ =>
    ∃ w', submit_solution get_challenge_feedback ChallengeSolutionForm
      solution_save_fault request pk w = (Ok (Redirect (py "challenge_detail") pk), w')
      ∧ challenges w' = challenges w
      ∧ ∀ k s, solutions w !! k = Some s → solutions w' !! k = Some s
  end.
Proof.
  destruct (approved_challenges w !! pk) as [c|] eqn:Ec.
  - destruct (submit_solution get_challenge_feedback ChallengeSolutionForm
      solution_save_fault request pk w) as [r w'] eqn:Erun.
    destruct (submit_solution_effect _ _ _ _ _ Erun) as [Hc Hs].
    exists w'. split; [|split; [done|]].
    + f_equal. revert Erun. run_handler. rewrite Ec.
      case_bool_decide; [|by intros [= <- _]].
      destruct (ChallengeSolutionForm (POST request)); [|by intros [= <- _]].
      cbn. destruct (get_challenge_feedback _ _ _); cbn;
        destruct (solution_save_fault _); cbn; by intros [= <- _].
    + intros k s Hk. destruct Hs as [-> | (f & fb & _ & _ & ->)]; [done|].
      rewrite lookup_insert_ne; [done|]. intros <-.
      pose proof (is_fresh (dom (solutions w))) as Hf.
      apply not_elem_of_dom in Hf. congruence.
  - run_handler. by rewrite Ec.
Qed.

(** X7. A solution that [submit_solution] adds is stored under a key that
    was free, comes from a POST with a valid form, belongs to the requesting
    user and to the challenge of the URL, and is marked correct with
    [correctness_level] ['correct'], whatever was submitted; no other key of
    the table changes. *)
Theorem submitted_solution_marked_correct request pk w r w' k s :
  submit_solution get_challenge_feedback ChallengeSolutionForm
      solution_save_fault request pk w = (r, w') →
  solutions w !! k = None →
  solutions w' !! k = Some s →
  ChallengeSolution.is_correct s = true
  ∧ ChallengeSolution.correctness_level s = PyStr (py "correct")
  ∧ ChallengeSolution.challenge s = pk
  ∧ ChallengeSolution.user s = username request
  ∧ method request = py "POST"
  ∧ (∃ f, ChallengeSolutionForm (POST request) = Some f
        ∧ ChallengeSolution.solution_text s = ChallengeSolution.solution_text f)
  ∧ ∀ k', k' ≠ k → solutions w' !! k' = solutions w !! k'.
Proof.
  intros Hrun Hold Hnew.
  destruct (submit_solution_effect _ _ _ _ _ Hrun) as [_ [E | (f & fb & Hm & Hf & E)]].
  { rewrite E in Hnew. congruence. }
  rewrite E in Hnew. apply lookup_insert_Some in Hnew as [[<- <-] | [_ Hnew]];
    [|congruence].
  repeat split; try done; [by exists f|].
  intros k' Hk'. rewrite E. by rewrite lookup_insert_ne.
Qed.

(** X8. When the AI service answers, the solution is saved with that
    answer as its [ai_feedback] (provided the store's save succeeds), the
    success message is queued and the handler redirects. *)
Theorem feedback_success_saved request pk w c f fb :
  let saved :=
    ChallengeSolution.Make pk (username request)
      (ChallengeSolution.solution_text f) true (PyStr (py "correct")) fb in
  approved_challenges w !! pk = Some c →
  method request = py "POST" →
  ChallengeSolutionForm (POST request) = Some f →
  get_challenge_feedback (ChallengeSolution.solution_text f) c (username request)
    = Ok fb →
  solution_save_fault saved = None →
  ∃ w' new_pk,
    submit_solution get_challenge_feedback ChallengeSolutionForm
      solution_save_fault request pk w = (Ok (Redirect (py "challenge_detail") pk), w')
    ∧ solutions w !! new_pk = None
    ∧ solutions w' = <[new_pk := saved]> (solutions w)
    ∧ flash w' =
        flash w ++ [(Success,
                     py "Your solution has been submitted! Check out the AI feedback.")].
Proof.
  intros saved Hc Hm Hf Hai Hsave.
  run_handler. rewrite Hc, bool_decide_eq_true_2, Hf by done. cbn.
  rewrite Hai. cbn.
  match goal with
  | |- context [solution_save_fault ?s] =>
    change (solution_save_fault s) with (solution_save_fault saved)
  end.
  rewrite Hsave. cbn. do 2 eexists. split; [reflexivity|]. cbn.
  split; [apply not_elem_of_dom, is_fresh | done].
Qed.


End HandlerOutcomes.

Section GenerateOutcomes.

Import Views.

Variable generate_new_challenge : str → str → str → res Generated.
Variable challenge_save_fault : Challenge.t → option exn.


Ltac run_generate :=
  unfold generate_ai_challenge, generate_and_save, try_except, save_challenge,
    add_message, print, lift, mbind, M_bind, mret, M_ret.

(** X10. [generate_ai_challenge] never raises: whatever the AI service and
    the record store do, it returns a response.  It touches no solution and
    no challenge already stored; it renders the generation page and adds no
    challenge, or redirects to a challenge it added under a key that was
    free. *)
Theorem generate_ai_challenge_outcome request w :
  ∃ resp w',
    generate_ai_challenge generate_new_challenge challenge_save_fault request w = (Ok resp, w')
    ∧ solutions w' = solutions w
    ∧ (∀ k c, challenges w !! k = Some c → challenges w' !! k = Some c)
    ∧ ((resp = Render (py "challenges/generate_challenge.html")
        ∧ challenges w' = challenges w)
       ∨ ∃ pk, resp = Redirect (py "challenge_detail") pk
               ∧ challenges w !! pk = None
               ∧ is_Some (challenges w' !! pk)).
Proof.
  pose proof (is_fresh (dom (challenges w))) as Hfresh.
  apply not_elem_of_dom in Hfresh.
  run_generate. case_bool_decide.
  2: { do 2 eexists. split; [reflexivity|]. split; [done|]. split; [done|]. by left. }
  destruct (generate_new_challenge _ _ _) as [g|e].
  2: { do 2 eexists. split; [reflexivity|]. cbn. split; [done|]. split; [done|].
       by left. }
  rewrite parse_eq. destruct (challenge_save_fault _) as [e|].
  { do 2 eexists. split; [reflexivity|]. cbn. split; [done|]. split; [done|].
    by left. }
  do 2 eexists. split; [reflexivity|]. cbn. split; [done|]. split.
  - intros k c Hk. rewrite lookup_insert_ne; [done|]. intros <-. congruence.
  - right. eexists. split; [reflexivity|]. split; [done|].
    rewrite lookup_insert_eq. by eexists.
Qed.



End GenerateOutcomes.

Section PageOutcomes.

Import Views Pages.

Variable order_by_submitted_at_desc :
  list (positive * ChallengeSolution.t) → list (positive * ChallengeSolution.t).
Variable ChallengeForm : gmap str str → option Challenge.t.
Variable challenge_save_fault : Challenge.t → option exn.


Ltac run_page :=
  unfold create_challenge, challenge_detail, get_world, get_object_or_404,
    save_challenge, add_message, lift, mbind, M_bind, mret, M_ret.

(** X13. A challenge created through a valid form is stored with the
    requesting user as [created_by] and with [is_approved] set, whatever
    the form carried in these two fields, so the approved-only queryset
    holds it at once; its other fields are the form's.  The success message
    is queued and the handler redirects to the new challenge. *)
Theorem created_challenge_is_approved request w f :
  let stored :=
    Challenge.Make (Challenge.title f) (Challenge.description f)
      (Challenge.difficulty f) (Challenge.hints f) (username request)
      (Challenge.is_ai_generated f) true in
  method request = py "POST" →
  ChallengeForm (POST request) = Some f →
  challenge_save_fault stored = None →
  ∃ w' pk,
    create_challenge ChallengeForm challenge_save_fault request w
    = (Ok (Redirect (py "challenge_detail") pk), w')
    ∧ challenges w !! pk = None
    ∧ challenges w' = <[pk := stored]> (challenges w)
    ∧ approved_challenges w' !! pk = Some stored
    ∧ solutions w' = solutions w
    ∧ flash w' = flash w ++ [(Success, py "Your challenge has been created!")].
Proof.
  intros stored Hm Hf Hsave. run_page.
  rewrite bool_decide_eq_true_2, Hf by done. fold stored. rewrite Hsave.
  do 2 eexists. split; [reflexivity|]. cbn.
  split; [apply not_elem_of_dom, is_fresh|]. split; [done|].
  split; [|done]. unfold approved_challenges. cbn.
  apply map_lookup_filter_Some. split; [apply lookup_insert_eq | done].
Qed.

(** X14. [create_challenge] stores nothing and renders the form when the
    request is no POST or the form is invalid; and a failure of the
    store's save is not caught here: it leaves the handler as raised, with
    the world as it was. *)
Theorem create_challenge_without_save request w :
  ((method request ≠ py "POST" ∨ ChallengeForm (POST request) = None) →
   create_challenge ChallengeForm challenge_save_fault request w
   = (Ok (Render (py "challenges/create_challenge.html")), w))
  ∧ (∀ f e,
       method request = py "POST" →
       ChallengeForm (POST request) = Some f →
       challenge_save_fault
         (Challenge.Make (Challenge.title f) (Challenge.description f)
            (Challenge.difficulty f) (Challenge.hints f) (username request)
            (Challenge.is_ai_generated f) true) = Some e →
       create_challenge ChallengeForm challenge_save_fault request w = (Raise e, w)).
Proof.
  split.
  - intros [Hm | Hf]; run_page.
    + by rewrite bool_decide_eq_false_2.
    + rewrite Hf. by case_bool_decide.
  - intros f e Hm Hf Hsave. run_page.
    by rewrite bool_decide_eq_true_2, Hf, Hsave.
Qed.

(** X15. [challenge_detail] answers [Http404] for a challenge that is
    missing or not approved.  For an approved one it changes nothing and,
    as long as the ordering only reorders the rows, the solution it shows
    is a stored solution of the requesting user to this very challenge, and
    it shows none exactly when that user has stored none for it. *)
Theorem challenge_detail_shows_own_solution request pk w :
  (approved_challenges w !! pk = None →
   challenge_detail order_by_submitted_at_desc request pk w
     = (Raise (Http404 (py "No Challenge matches the given query.")), w))
  ∧ (∀ c,
       approved_challenges w !! pk = Some c →
       (∀ rows, order_by_submitted_at_desc rows ≡ₚ rows) →
       ∃ ctx,
         challenge_detail order_by_submitted_at_desc request pk w = (Ok ctx, w)
         ∧ detail_challenge ctx = c
         ∧ (∀ s, user_solution ctx = Some s →
                 ChallengeSolution.challenge s = pk
                 ∧ ChallengeSolution.user s = username request
                 ∧ ∃ k, solutions w !! k = Some s)
         ∧ (user_solution ctx = None ↔
            ∀ k s, solutions w !! k = Some s →
                   ¬ (ChallengeSolution.challenge s = pk
                      ∧ ChallengeSolution.user s = username request))).
Proof.
  clear ChallengeForm challenge_save_fault. split.
  - intros Hc. run_page. by rewrite Hc.
  - intros c Hc Hperm. run_page. rewrite Hc. eexists. split; [reflexivity|].
    cbn [detail_challenge user_solution]. split; [done|].
    set (rows := filter _ (map_to_list (solutions w))).
    assert (∀ row, row ∈ order_by_submitted_at_desc rows ↔
              solutions w !! row.1 = Some row.2
              ∧ ChallengeSolution.challenge row.2 = pk
              ∧ ChallengeSolution.user row.2 = username request) as Hin.
    { intros [k s]. rewrite (Hperm rows). unfold rows.
      rewrite list_elem_of_filter, elem_of_map_to_list. cbn. tauto. }
    destruct (order_by_submitted_at_desc rows) as [|[k0 s0] rest] eqn:E; cbn.
    + split; [done|]. split; [|done]. intros _ k s Hk Hs.
      apply (not_elem_of_nil (k, s)). apply Hin. by split.
    + destruct (proj1 (Hin (k0, s0))) as (Hk & H1 & H2); [left|]. cbn in *.
      split.
      * intros s [= <-]. eauto.
      * split; [done|]. intros H. by destruct (H k0 s0 Hk).
Qed.

End PageOutcomes.

(** * Properties of the challenge list *)

Section ListFacts.

Import Views Pages.

#[local] Open Scope Z_scope.

Variable icontains : str → str → bool.
Variable order_by_created_at_desc :
  list (positive * Challenge.t) → list (positive * Challenge.t).


(** The page number after the two boundary tests. *)
Lemma current_page_eq request difficulty q page w :
  let n := Z.of_nat (length (list_queryset icontains order_by_created_at_desc difficulty q w)) in
  let pages := (n + 6 - 1) `div` 6 in
  current_page (list_context icontains order_by_created_at_desc request difficulty q page w) =
    if page <? 1 then 1
    else if (pages <? page) && (0 <? pages) then pages
    else page.
Proof. reflexivity. Qed.

Lemma ctx_challenges_eq request difficulty q page w :
  ctx_challenges (list_context icontains order_by_created_at_desc request difficulty q page w) =
    take 6
      (drop (Z.to_nat
               ((current_page
                   (list_context icontains order_by_created_at_desc request
                      difficulty q page w) - 1) * 6))
              (list_queryset icontains order_by_created_at_desc difficulty q w)).
Proof.
  unfold list_context, slice. cbn [ctx_challenges current_page].
  f_equal. lia.
Qed.

(** X16. The list shows at most six challenges; [total_pages] is the
    number of challenges divided by six, rounded up; the page shown is at
    least 1, and when there is any challenge it is at most [total_pages] and
    is not empty, however far out of range the requested page was. *)
Theorem page_within_bounds request difficulty q page w :
  let ctx := list_context icontains order_by_created_at_desc request difficulty q page w in
  let n := Z.of_nat (length (list_queryset icontains order_by_created_at_desc difficulty q w)) in
  total_challenges ctx = n
  ∧ 6 * (total_pages ctx - 1) < n ≤ 6 * total_pages ctx
  ∧ (length (ctx_challenges ctx) ≤ 6)%nat
  ∧ 1 ≤ current_page ctx
  ∧ (0 < n → current_page ctx ≤ total_pages ctx ∧ ctx_challenges ctx ≠ []).
Proof.
  intros ctx n. unfold ctx. rewrite ctx_challenges_eq, current_page_eq.
  cbn [total_challenges total_pages list_context]. fold n.
  set (pages := (n + 6 - 1) `div` 6).
  assert (6 * (pages - 1) < n ≤ 6 * pages) as Hpages.
  { unfold pages. Z.div_mod_to_equations. lia. }
  split; [done|]. split; [done|]. split; [rewrite length_take; lia|].
  split.
  - repeat case_match; lia.
  - intros Hn.
    assert (1 ≤ (if page <? 1 then 1
                 else if (pages <? page) && (0 <? pages) then pages else page) ≤ pages)
      as Hp.
    { destruct (page <? 1) eqn:E1; [lia|].
      destruct (pages <? page) eqn:E2; destruct (0 <? pages) eqn:E3; cbn; lia. }
    split; [lia|]. intros Hnil%(f_equal length). revert Hnil.
    rewrite length_take, length_drop. cbn [length]. lia.
Qed.

(** Cutting a list into chunks of six and joining them gives it back. *)
Lemma chunks_concat {A} (l : list A) (m : nat) :
  (length l ≤ 6 * m)%nat →
  concat ((λ k : nat, take 6 (drop (k * 6) l)) <$> seq 0 m) = l.
Proof.
  revert l. induction m as [|m IH]; intros l Hl.
  - destruct l; [done | simpl in Hl; lia].
  - cbn [seq fmap list_fmap concat]. rewrite <- fmap_S_seq, <- list_fmap_compose.
    transitivity (take 6 l ++ drop 6 l); [|apply take_drop].
    f_equal; [done..|].
    rewrite <- (IH (drop 6 l)) by (rewrite length_drop; lia).
    f_equal. apply list_fmap_ext. intros _ k _. cbn. rewrite drop_drop.
    do 2 f_equal; lia.
Qed.

(** X17. The pages 1 to [total_pages] show every challenge of the
    filtered, ordered queryset exactly once and in order: joined one after
    the other they are the queryset. *)
Theorem pages_partition_queryset request difficulty q w :
  let pages :=
    total_pages (list_context icontains order_by_created_at_desc request difficulty q 1 w) in
  concat ((λ page,
             ctx_challenges
               (list_context icontains order_by_created_at_desc request difficulty q page w))
            <$> seqZ 1 pages)
  = list_queryset icontains order_by_created_at_desc difficulty q w.
Proof.
  intros pages.
  set (n := Z.of_nat (length (list_queryset icontains order_by_created_at_desc difficulty q w))).
  assert (pages = (n + 6 - 1) `div` 6) as Epages by reflexivity.
  assert (6 * (pages - 1) < n ≤ 6 * pages) as Hpages.
  { rewrite Epages. Z.div_mod_to_equations. lia. }
  etrans;
    [|apply (chunks_concat
               (list_queryset icontains order_by_created_at_desc difficulty q w)
               (Z.to_nat pages)); lia].
  f_equal. unfold seqZ. rewrite <- list_fmap_compose.
  apply list_fmap_ext. intros i k [-> Hk]%lookup_seq. unfold compose. cbv beta.
  rewrite ctx_challenges_eq, current_page_eq. fold n. rewrite <- Epages.
  rewrite (proj2 (Z.ltb_ge _ _)) by lia.
  rewrite (proj2 (Z.ltb_ge pages _)) by lia. cbn [andb].
  do 2 f_equal. lia.
Qed.

(** X18. There is a next page exactly when challenges remain after the
    ones shown, and a previous page exactly when the page shown is not the
    first. *)
Theorem has_next_iff_more request difficulty q page w :
  let ctx := list_context icontains order_by_created_at_desc request difficulty q page w in
  (has_next ctx = true ↔
   6 * current_page ctx
   < Z.of_nat (length (list_queryset icontains order_by_created_at_desc difficulty q w)))
  ∧ (has_prev ctx = true ↔ 1 < current_page ctx).
Proof.
  intros ctx.
  destruct (page_within_bounds request difficulty q page w) as (_ & Hpages & _ & H1 & _).
  fold ctx in Hpages, H1.
  change (has_next ctx) with (current_page ctx <? total_pages ctx).
  change (has_prev ctx) with (1 <? current_page ctx).
  rewrite !Z.ltb_lt. split; [|done]. lia.
Qed.

(** X19. The page links are exactly the page numbers between 1 and
    [total_pages] that are at most two away from the page shown. *)
Theorem page_range_window request difficulty q page w p :
  let ctx := list_context icontains order_by_created_at_desc request difficulty q page w in
  p ∈ page_range ctx ↔
    1 ≤ p ≤ total_pages ctx ∧ current_page ctx - 2 ≤ p ≤ current_page ctx + 2.
Proof.
  intros ctx.
  change (page_range ctx) with
    (py_range (1 `max` (current_page ctx - 2))
       ((total_pages ctx + 1) `min` (current_page ctx + 3))).
  unfold py_range. rewrite elem_of_seqZ. lia.
Qed.


(** X21. As long as the ordering only reorders the rows, every challenge
    on a page is a stored, approved challenge; it has the requested
    difficulty when one was given and passes the search test when a query
    was given. *)
Theorem listed_challenges_are_approved request difficulty q page w k c :
  (∀ rows, order_by_created_at_desc rows ≡ₚ rows) →
  (k, c) ∈ ctx_challenges
             (list_context icontains order_by_created_at_desc request difficulty q page w) →
  challenges w !! k = Some c
  ∧ Challenge.is_approved c = true
  ∧ (difficulty ≠ [] → Challenge.difficulty c = difficulty)
  ∧ (q ≠ [] → matches_query icontains q c = true).
Proof.
  intros Hperm. rewrite ctx_challenges_eq.
  intros Hin%subseteq_take%subseteq_drop.
  unfold list_queryset in Hin. rewrite Hperm, elem_of_map_to_list in Hin.
  unfold approved_challenges in Hin.
  destruct (truthy q) eqn:Eq, (truthy difficulty) eqn:Ed;
    repeat (apply map_lookup_filter_Some in Hin as [Hin ?]);
    try apply truthy_false in Eq; try apply truthy_false in Ed;
    repeat split; cbn in *; try done; intros; congruence.
Qed.

Lemma index_by_challenge_snoc rows row :
  index_by_challenge (rows ++ [row])
  = <[ChallengeSolution.challenge row.2 := row.2]> (index_by_challenge rows).
Proof. unfold index_by_challenge. by rewrite foldl_app. Qed.

Lemma index_by_challenge_lookup rows cid s :
  index_by_challenge rows !! cid = Some s →
  ChallengeSolution.challenge s = cid ∧ ∃ k, (k, s) ∈ rows.
Proof.
  induction rows as [|[k0 s0] rows IH] using rev_ind; [done|].
  rewrite index_by_challenge_snoc. cbn [snd].
  intros [[<- <-] | [_ H]]%lookup_insert_Some.
  - split; [done|]. exists k0. apply elem_of_app. right. by left.
  - destruct (IH H) as [? [k Hk]]. split; [done|]. exists k.
    apply elem_of_app. by left.
Qed.

Lemma index_by_challenge_covers rows row :
  row ∈ rows →
  is_Some (index_by_challenge rows !! ChallengeSolution.challenge row.2).
Proof.
  induction rows as [|row0 rows IH] using rev_ind; [by intros ?%elem_of_nil|].
  rewrite index_by_challenge_snoc.
  intros [H | ->%list_elem_of_singleton]%elem_of_app.
  - destruct (decide (ChallengeSolution.challenge row0.2
                      = ChallengeSolution.challenge row.2)) as [->|Hne].
    + rewrite lookup_insert_eq. by eexists.
    + rewrite lookup_insert_ne by done. by apply IH.
  - rewrite lookup_insert_eq. by eexists.
Qed.

(** X22. [user_solutions] maps a challenge of the page to a stored
    solution of the requesting user to that challenge, and to nobody
    else's; and it has an entry for every challenge of the page the user
    has a stored solution to. *)
Theorem user_solutions_on_page request difficulty q page w :
  let ctx := list_context icontains order_by_created_at_desc request difficulty q page w in
  (∀ cid s,
     user_solutions ctx !! cid = Some s →
     ChallengeSolution.challenge s = cid
     ∧ ChallengeSolution.user s = username request
     ∧ cid ∈ (ctx_challenges ctx).*1
     ∧ ∃ k, solutions w !! k = Some s)
  ∧ (∀ k s,
       solutions w !! k = Some s →
       ChallengeSolution.user s = username request →
       ChallengeSolution.challenge s ∈ (ctx_challenges ctx).*1 →
       is_Some (user_solutions ctx !! ChallengeSolution.challenge s)).
Proof.
  intros ctx.
  change (user_solutions ctx) with
    (index_by_challenge
       (filter (λ row, ChallengeSolution.challenge row.2 ∈ (ctx_challenges ctx).*1
                       ∧ ChallengeSolution.user row.2 = username request)
          (map_to_list (solutions w)))).
  split.
  - intros cid s [<- [k Hk]]%index_by_challenge_lookup.
    apply list_elem_of_filter in Hk as [[Hid Hu] Hk]. cbn in Hid, Hu.
    apply elem_of_map_to_list in Hk. eauto.
  - intros k s Hk Hu Hid.
    apply (index_by_challenge_covers _ (k, s)).
    apply list_elem_of_filter. split; [done|]. by apply elem_of_map_to_list.
Qed.

End ListFacts.

(** * The backfill, again *)

Section BackfillFacts.

Import Views Migration.

Variable get_challenge_feedback : str → Challenge.t → str → res str.
Variable ChallengeSolutionForm : gmap str str → option ChallengeSolution.t.
Variable solution_save_fault : ChallengeSolution.t → option exn.

Lemma backfill_fixed s : backfill (backfill s) = backfill s.
Proof.
  unfold backfill, with_level. destruct s as [ch us tx ok lv fb]. cbn.
  by destruct ok, lv as [| |[|c l]].
Qed.

(** X23. After the backfill every row has a non-empty
    [correctness_level], and running the backfill a second time changes
    nothing. *)
Theorem backfill_settles_every_row table :
  set_default_correctness_level (set_default_correctness_level table)
  = set_default_correctness_level table
  ∧ ∀ pk s,
      set_default_correctness_level table !! pk = Some s →
      ∃ c l, ChallengeSolution.correctness_level s = PyStr (c :: l).
Proof.
  split.
  - apply map_eq. intros pk. rewrite !set_default_correctness_level_lookup.
    destruct (table !! pk); [|done]. cbn. by rewrite backfill_fixed.
  - intros pk s. rewrite set_default_correctness_level_lookup.
    destruct (table !! pk) as [s0|]; [|done]. intros [= <-].
    unfold backfill, with_level. destruct s0 as [ch us tx ok lv fb]. cbn.
    destruct ok, lv as [| |[|c l]]; cbn; by do 2 eexists.
Qed.

(** X24. A solution stored by [submit_solution] is left exactly as it is
    by the backfill. *)
Theorem backfill_keeps_submitted request pk w r w' k s :
  submit_solution get_challenge_feedback ChallengeSolutionForm solution_save_fault
    request pk w = (r, w') →
  solutions w !! k = None →
  solutions w' !! k = Some s →
  backfill s = s ∧ set_default_correctness_level (solutions w') !! k = Some s.
Proof.
  intros Hrun Hold Hnew.
  assert (backfill s = s) as E.
  { destruct (submit_solution_effect _ _ _ _ _ _ _ _ Hrun)
      as [_ [E | (f & fb & _ & _ & E)]]; rewrite E in Hnew; [congruence|].
    apply lookup_insert_Some in Hnew as [[_ <-] | [_ Hnew]]; [done | congruence]. }
  split; [done|]. by rewrite set_default_correctness_level_lookup, Hnew; cbn; rewrite E.
Qed.

End BackfillFacts.

(** * The further properties on sample requests *)

Section OutcomeSamples.

Import Views Pages Samples PageSamples Migration.

Lemma submitted_solution_marked_correct_witness :
  ∃ s, solutions (submit_solution ai_down text_form no_fault
                    (post_solution (py "ada")) 1 world0).2 !! 1%positive = Some s
    ∧ ChallengeSolution.is_correct s = true
    ∧ ChallengeSolution.correctness_level s = PyStr (py "correct")
    ∧ ChallengeSolution.user s = py "ada".
Proof.
  eexists. split; [by vm_compute|].
  match goal with
  | |- ChallengeSolution.is_correct ?s = true ∧ _ =>
    destruct (submitted_solution_marked_correct ai_down text_form no_fault
                (post_solution (py "ada")) 1 world0 _ _ 1%positive s
                (surjective_pairing _)) as (H1 & H2 & _ & H4 & _);
      [by vm_compute | by vm_compute |]
  end.
  split; [exact H1|]. split; [exact H2 | exact H4].
Defined.

Lemma feedback_success_saved_witness :
  ∃ w' new_pk,
    submit_solution ai_praise text_form no_fault (post_solution (py "ada")) 1 world0
      = (Ok (Redirect (py "challenge_detail") 1), w')
    ∧ solutions world0 !! new_pk = None
    ∧ solutions w' =
        <[new_pk := ChallengeSolution.Make 1 (py "ada") (py "use a dict") true
                      (PyStr (py "correct")) (py "Well done")]> (solutions world0)
    ∧ flash w' =
        flash world0 ++ [(Success,
                     py "Your solution has been submitted! Check out the AI feedback.")].
Proof.
  apply (feedback_success_saved ai_praise text_form no_fault
           (post_solution (py "ada")) 1 world0 two_sum
           (ChallengeSolution.Make 1 [] (py "use a dict") false NoAttr [])
           (py "Well done")); by vm_compute.
Defined.




Lemma created_challenge_is_approved_witness :
  ∃ w' pk c,
    create_challenge title_form no_fault post_challenge world0
      = (Ok (Redirect (py "challenge_detail") pk), w')
    ∧ approved_challenges w' !! pk = Some c
    ∧ Challenge.title c = py "FizzBuzz"
    ∧ Challenge.created_by c = py "ada"
    ∧ Challenge.is_approved c = true.
Proof.
  destruct (created_challenge_is_approved title_form no_fault post_challenge world0
              (Challenge.Make (py "FizzBuzz") (py "Describe it") (py "beginner") []
                 (py "nobody") false false))
    as (w' & pk & Hrun & _ & _ & Hq & _); [by vm_compute..|].
  do 3 eexists. split; [exact Hrun|]. split; [exact Hq|]. by vm_compute.
Defined.

Lemma create_challenge_without_save_witness :
  create_challenge title_form no_fault (get_request (py "ada")) world0
    = (Ok (Render (py "challenges/create_challenge.html")), world0)
  ∧ create_challenge title_form locked post_challenge world0
    = (Raise (Exception (py "database is locked")), world0).
Proof.
  split.
  - apply (proj1 (create_challenge_without_save title_form no_fault
                    (get_request (py "ada")) world0)).
    left. by vm_compute.
  - apply (proj2 (create_challenge_without_save title_form locked post_challenge world0)
             (Challenge.Make (py "FizzBuzz") (py "Describe it") (py "beginner") []
                (py "nobody") false false)); by vm_compute.
Defined.

Lemma challenge_detail_shows_own_solution_witness :
  challenge_detail as_stored (get_request (py "ada")) 9 library
    = (Raise (Http404 (py "No Challenge matches the given query.")), library)
  ∧ ∃ ctx, challenge_detail as_stored (get_request (py "bob")) 1 library = (Ok ctx, library)
      ∧ ∀ s, user_solution ctx = Some s → ChallengeSolution.user s = py "bob".
Proof.
  split.
  - apply (proj1 (challenge_detail_shows_own_solution as_stored
                    (get_request (py "ada")) 9 library)).
    by vm_compute.
  - destruct (proj2 (challenge_detail_shows_own_solution as_stored
                       (get_request (py "bob")) 1 library) (numbered 1 true))
      as (ctx & Hrun & _ & Hs & _); [by vm_compute | done |].
    exists ctx. split; [exact Hrun|]. intros s H. by destruct (Hs s H) as (_ & ? & _).
Defined.

Lemma page_within_bounds_witness :
  let ctx := list_context contains as_stored (get_request (py "ada")) [] [] 7 library in
  total_challenges ctx = 8%Z
  ∧ (current_page ctx ≤ total_pages ctx)%Z
  ∧ ctx_challenges ctx ≠ [].
Proof.
  intros ctx.
  destruct (page_within_bounds contains as_stored (get_request (py "ada")) [] [] 7 library)
    as (Hn & _ & _ & _ & H).
  split; [by vm_compute|]. apply H. by vm_compute.
Defined.


Lemma listed_challenges_are_approved_witness :
  challenges library !! 8%positive = Some (numbered 8 true)
  ∧ Challenge.is_approved (numbered 8 true) = true.
Proof.
  destruct (listed_challenges_are_approved contains as_stored (get_request (py "ada"))
              (py "beginner") [] 1 library 8%positive (numbered 8 true))
    as (H1 & H2 & _); [done | |by split].
  apply (list_elem_of_lookup_2 _ 4%nat). by vm_compute.
Defined.

Lemma user_solutions_on_page_witness :
  let ctx := list_context contains as_stored (get_request (py "ada")) [] [] 1 library in
  ∃ s, user_solutions ctx !! 8%positive = Some s
    ∧ ChallengeSolution.user s = py "ada"
    ∧ ChallengeSolution.challenge s = 8%positive.
Proof.
  intros ctx. eexists. split; [by vm_compute|].
  destruct (proj1 (user_solutions_on_page contains as_stored (get_request (py "ada"))
                     [] [] 1 library) 8%positive _ eq_refl) as (H1 & H2 & _).
  split; [exact H2 | exact H1].
Defined.

Lemma backfill_settles_every_row_witness :
  let table : gmap positive ChallengeSolution.t :=
    {[ 1%positive := ChallengeSolution.Make 1 (py "ada") (py "x") false NoAttr [] ]} in
  ∃ s c l, set_default_correctness_level table !! 1%positive = Some s
    ∧ ChallengeSolution.correctness_level s = PyStr (c :: l).
Proof.
  intros table. eexists.
  destruct (proj2 (backfill_settles_every_row table) 1%positive _ eq_refl)
    as (c & l & H).
  exists c, l. split; [reflexivity | exact H].
Defined.

Lemma backfill_keeps_submitted_witness :
  ∃ s, solutions (submit_solution ai_praise text_form no_fault
                    (post_solution (py "ada")) 1 world0).2 !! 1%positive = Some s
    ∧ backfill s = s.
Proof.
  eexists. split; [by vm_compute|].
  match goal with
  | |- backfill ?s = _ =>
    apply (backfill_keeps_submitted ai_praise text_form no_fault
             (post_solution (py "ada")) 1 world0 _ _ 1%positive s
             (surjective_pairing _)); by vm_compute
  end.
Defined.

End OutcomeSamples.
